(** * Task API of express-prisma-react: resolvers, context and pagination

    A shallow embedding of
    - [server/src/resolvers.js] (requireAuth, the [task] and [tasksCursor]
      queries, the [createTask], [updateTask], [deleteTask] and
      [toggleTaskComplete] mutations),
    - [server/src/index.js] ([getContext]),
    - [server/src/utils/auth.js] ([verifyToken]), and
    - [server/src/utils/errors.js] (the four error classes),
    over a functional model of the Prisma Client calls the resolvers make.

    Resolvers are state-passing computations over the database; a thrown
    error is a [Throw] result that leaves the database as it was when the
    error was raised. *)

From Stdlib Require Import ZArith List String Ascii Bool Lia.
From Stdlib Require Import Sorting.Sorted Sorting.Permutation.
Import ListNotations.

Local Open Scope string_scope.
Local Open Scope Z_scope.
Local Open Scope list_scope.

(* ===================================================================== *)
(** ** JavaScript values used by the resolvers *)
(* ===================================================================== *)

(** An optional GraphQL argument as the resolver receives it: the key is
    missing ([Undefined]), explicitly [null], or carries a value. *)
Inductive arg (A : Type) : Type :=
| Undefined : arg A
| Null : arg A
| Given : A -> arg A.
Arguments Undefined {A}.
Arguments Null {A}.
Arguments Given {A} _.

(** A destructuring default [{ x = d }] replaces [undefined] only; an
    explicit [null] stays [null] (here [None]). *)
Definition default_param {A} (d : A) (a : arg A) : option A :=
  match a with
  | Undefined => Some d
  | Null => None
  | Given v => Some v
  end.

(** [ToNumber] on a number or [null]: [null] is [0]. *)
Definition toNumber (v : option Z) : Z :=
  match v with
  | Some z => z
  | None => 0
  end.

(** Truthiness of a string argument: [undefined], [null] and the empty
    string are falsy. *)
Definition truthy (a : arg string) : bool :=
  match a with
  | Given s => negb (s =? "")%string
  | _ => false
  end.

(** [a || d] on strings. *)
Definition or_else (a : arg string) (d : string) : string :=
  match a with
  | Given s => if (s =? "")%string then d else s
  | _ => d
  end.

(** [xs.slice(0, e)]: a negative end counts from the end of the array, and
    the end is clamped to the bounds. *)
Definition slice0 {A} (xs : list A) (e : Z) : list A :=
  let len := Z.of_nat (List.length xs) in
  let final := if e <? 0 then Z.max (len + e) 0 else Z.min e len in
  firstn (Z.to_nat final) xs.

(** [xs[0]?.f] and [xs[xs.length - 1]?.f]. *)
Definition first_of {A B} (f : A -> B) (xs : list A) : arg B :=
  match xs with
  | [] => Undefined
  | x :: _ => Given (f x)
  end.

Fixpoint last_of {A B} (f : A -> B) (xs : list A) : arg B :=
  match xs with
  | [] => Undefined
  | [x] => Given (f x)
  | _ :: r => last_of f r
  end.

(** JavaScript white space as far as 8-bit characters go: TAB, LF, VT, FF,
    CR, SPACE and NBSP. *)
Definition is_space (c : ascii) : bool :=
  let n := nat_of_ascii c in
  ((9 <=? n)%nat && (n <=? 13)%nat) || (n =? 32)%nat || (n =? 160)%nat.

Fixpoint trimStart (s : string) : string :=
  match s with
  | EmptyString => EmptyString
  | String c r => if is_space c then trimStart r else s
  end.

(** [trimEnd] keeps a character when it is not a space or when something
    is left after it. *)
Fixpoint trimEnd (s : string) : string :=
  match s with
  | EmptyString => EmptyString
  | String c r =>
      match trimEnd r with
      | EmptyString => if is_space c then EmptyString else String c EmptyString
      | r' => String c r'
      end
  end.

Definition trim (s : string) : string := trimEnd (trimStart s).

(** [s.replace(pat, rep)] with a string pattern: the first occurrence
    only. *)
Fixpoint replace (pat rep s : string) : string :=
  if String.prefix pat s
  then (rep ++ substring (String.length pat)
                         (String.length s - String.length pat)%nat s)%string
  else match s with
       | EmptyString => EmptyString
       | String c r => String c (replace pat rep r)
       end.

(* ===================================================================== *)
(** ** Data model (prisma/schema.prisma) *)
(* ===================================================================== *)

Module User.
Record t : Type := mk
  { id : string;
    name : string;
    email : string;
    password : string;
    createdAt : Z }.
End User.

Module Task.
Record t : Type := mk
  { id : string;
    title : string;
    description : option string;
    completed : bool;
    createdAt : Z;
    updatedAt : Z;
    userId : string }.
End Task.

(** The database: the two tables, rows in storage order. *)
Record Db : Type := mkDb
  { users : list User.t;
    tasks : list Task.t }.

(** What the surrounding runtime supplies to a call: the clock that feeds
    [@default(now())] and [@updatedAt], and the value [@default(uuid())]
    draws. *)
Record Env : Type := mkEnv
  { now : Z;
    uuid : string }.

(* ===================================================================== *)
(** ** Errors (utils/errors.js) and resolver computations *)
(* ===================================================================== *)

(** The four GraphQL error classes of the server, and the errors its two
    libraries throw. *)
Inductive Error : Type :=
| AuthenticationError (message : string)
| ForbiddenError (message : string)
| ValidationError (message : string)
| NotFoundError (message : string)
| PrismaClientKnownRequestError (prisma_code : string)
| PrismaClientValidationError (message : string)
| JsonWebTokenError (message : string).

(** [extensions.code] of the GraphQL error classes. *)
Definition code (e : Error) : string :=
  match e with
  | AuthenticationError _ => "UNAUTHENTICATED"
  | ForbiddenError _ => "FORBIDDEN"
  | ValidationError _ => "BAD_USER_INPUT"
  | NotFoundError _ => "NOT_FOUND"
  | PrismaClientKnownRequestError _ => "INTERNAL_SERVER_ERROR"
  | PrismaClientValidationError _ => "INTERNAL_SERVER_ERROR"
  | JsonWebTokenError _ => "INTERNAL_SERVER_ERROR"
  end.

Inductive Result (A : Type) : Type :=
| Ok : A -> Result A
| Throw : Error -> Result A.
Arguments Ok {A} _.
Arguments Throw {A} _.

(** An async function over the database. *)
Definition Resolver (A : Type) : Type := Db -> Result A * Db.

Definition ret {A} (a : A) : Resolver A := fun db => (Ok a, db).

Definition throw {A} (e : Error) : Resolver A := fun db => (Throw e, db).

Definition bind {A B} (m : Resolver A) (k : A -> Resolver B) : Resolver B :=
  fun db =>
    match m db with
    | (Ok a, db') => k a db'
    | (Throw e, db') => (Throw e, db')
    end.

(** A read-only storage call. *)
Definition query {A} (f : Db -> A) : Resolver A := fun db => (Ok (f db), db).

Notation "x <- m ;; k" := (bind m (fun x => k))
  (at level 61, m at next level, right associativity).

Definition value {A} (r : Result A * Db) : Result A := fst r.
Definition final {A} (r : Result A * Db) : Db := snd r.

(* ===================================================================== *)
(** ** The storage collaborator: Prisma Client calls on the two tables *)
(* ===================================================================== *)

(** Prisma Client is a dependency of the server, not part of it.  The
    calls the resolvers make are modelled after its documented behaviour:
    - [findUnique] returns the row with the given primary key or [null];
    - [findMany] filters by [where], orders by [orderBy] (rows that compare
      equal keep their storage order), starts at the row the [cursor]
      names (an unknown cursor gives no rows), drops [skip] rows and keeps
      [take] rows; a negative [take] walks the ordered rows backwards;
    - [update] and [delete] throw P2025 when the row does not exist,
      [create] throws P2002 when the primary key is taken;
    - [update] refuses [null] for a column that is not nullable with a
      validation error, writes nothing when [data] sets no column, and
      otherwise writes the columns [data] sets and the time of the call
      into [updatedAt];
    - a [where] whose only key is [undefined] is refused with a
      validation error. *)

Inductive SortOrder : Type := asc | desc.

(** [orderBy: { createdAt: o }]: does [a] go before or level with [b]? *)
Definition createdAt_le (o : SortOrder) (a b : Task.t) : bool :=
  match o with
  | asc => Task.createdAt a <=? Task.createdAt b
  | desc => Task.createdAt b <=? Task.createdAt a
  end.

Fixpoint insert_by (le : Task.t -> Task.t -> bool) (x : Task.t)
    (l : list Task.t) : list Task.t :=
  match l with
  | [] => [x]
  | h :: r => if le x h then x :: h :: r else h :: insert_by le x r
  end.

Fixpoint sort_by (le : Task.t -> Task.t -> bool) (l : list Task.t)
    : list Task.t :=
  match l with
  | [] => []
  | x :: r => insert_by le x (sort_by le r)
  end.

(** The rows from the one the cursor names onwards. *)
Fixpoint from_cursor (c : string) (l : list Task.t) : list Task.t :=
  match l with
  | [] => []
  | t :: r => if (Task.id t =? c)%string then t :: r else from_cursor c r
  end.

Record FindManyArgs : Type := mkFindMany
  { where_userId : option string;
    take : option Z;
    cursor : option string;
    skip : option Z;
    orderBy_createdAt : option SortOrder }.

(** [data] of [prisma.task.update]: each key of [UpdateTaskInput] is
    missing, [null] or a value. *)
Record UpdateTaskInput : Type := mkUpdateTaskInput
  { upd_title : arg string;
    upd_description : arg string;
    upd_completed : arg bool }.

Record TaskCreateData : Type := mkTaskCreateData
  { data_title : string;
    data_description : option string;
    data_userId : string }.

(** A task row with [include: { user: true }]. *)
Record TaskWithUser : Type := mkTaskWithUser
  { task_of : Task.t;
    user_of : option User.t }.

Module prisma.

Module user.
Definition findUnique (where_id : string) (db : Db) : option User.t :=
  find (fun u => (User.id u =? where_id)%string) (users db).
End user.

Module task.

Definition findUnique (where_id : string) (db : Db) : option Task.t :=
  find (fun t => (Task.id t =? where_id)%string) (tasks db).

Definition matches (w : option string) (t : Task.t) : bool :=
  match w with
  | Some u => (Task.userId t =? u)%string
  | None => true
  end.

Definition count (w : option string) (db : Db) : Z :=
  Z.of_nat (List.length (filter (matches w) (tasks db))).

(** The filtered rows in the requested order. *)
Definition ordered (a : FindManyArgs) (db : Db) : list Task.t :=
  let rows := filter (matches (where_userId a)) (tasks db) in
  match orderBy_createdAt a with
  | Some o => sort_by (createdAt_le o) rows
  | None => rows
  end.

Definition findMany (a : FindManyArgs) (db : Db) : list Task.t :=
  let backwards :=
    match take a with
    | Some n => n <? 0
    | None => false
    end in
  let rows := if backwards then rev (ordered a db) else ordered a db in
  let rows :=
    match cursor a with
    | Some c => from_cursor c rows
    | None => rows
    end in
  let rows :=
    match skip a with
    | Some k => skipn (Z.to_nat k) rows
    | None => rows
    end in
  let rows :=
    match take a with
    | Some n => firstn (Z.to_nat (Z.abs n)) rows
    | None => rows
    end in
  if backwards then rev rows else rows.

Definition with_user (db : Db) (t : Task.t) : TaskWithUser :=
  {| task_of := t; user_of := user.findUnique (Task.userId t) db |}.

Definition create (env : Env) (d : TaskCreateData) : Resolver Task.t :=
  fun db =>
    match findUnique (uuid env) db with
    | Some _ => (Throw (PrismaClientKnownRequestError "P2002"), db)
    | None =>
        let t := {| Task.id := uuid env;
                    Task.title := data_title d;
                    Task.description := data_description d;
                    Task.completed := false;
                    Task.createdAt := now env;
                    Task.updatedAt := now env;
                    Task.userId := data_userId d |} in
        (Ok t, {| users := users db; tasks := tasks db ++ [t] |})
    end.

(** [title] and [completed] are not nullable. *)
Definition data_refused (d : UpdateTaskInput) : bool :=
  match upd_title d, upd_completed d with
  | Null, _ => true
  | _, Null => true
  | _, _ => false
  end.

(** [data] sets no column. *)
Definition data_empty (d : UpdateTaskInput) : bool :=
  match upd_title d, upd_description d, upd_completed d with
  | Undefined, Undefined, Undefined => true
  | _, _, _ => false
  end.

Definition apply_data (env : Env) (d : UpdateTaskInput) (t : Task.t)
    : Task.t :=
  if data_empty d then t
  else
    {| Task.id := Task.id t;
       Task.title := match upd_title d with
                     | Given s => s
                     | _ => Task.title t
                     end;
       Task.description := match upd_description d with
                           | Given s => Some s
                           | Null => None
                           | Undefined => Task.description t
                           end;
       Task.completed := match upd_completed d with
                         | Given b => b
                         | _ => Task.completed t
                         end;
       Task.createdAt := Task.createdAt t;
       Task.updatedAt := now env;
       Task.userId := Task.userId t |}.

Definition update (env : Env) (where_id : string) (d : UpdateTaskInput)
    : Resolver Task.t :=
  fun db =>
    if data_refused d
    then (Throw (PrismaClientValidationError
                   "Invalid prisma.task.update() invocation"), db)
    else
      match findUnique where_id db with
      | None => (Throw (PrismaClientKnownRequestError "P2025"), db)
      | Some t =>
          let t' := apply_data env d t in
          (Ok t',
           {| users := users db;
              tasks := map (fun x => if (Task.id x =? where_id)%string
                                     then t' else x) (tasks db) |})
      end.

Definition delete (where_id : string) : Resolver Task.t :=
  fun db =>
    match findUnique where_id db with
    | None => (Throw (PrismaClientKnownRequestError "P2025"), db)
    | Some t =>
        (Ok t,
         {| users := users db;
            tasks := filter (fun x => negb (Task.id x =? where_id)%string)
                            (tasks db) |})
    end.

End task.

End prisma.

(* ===================================================================== *)
(** ** Context (index.js, utils/auth.js) *)
(* ===================================================================== *)

(** [context] as the resolvers see it: the user row of the caller, or
    [null]. *)
Record Context : Type := mkContext
  { user : option User.t }.

Record JwtPayload : Type := mkJwtPayload
  { payload_userId : option string;
    iat : Z;
    exp : Z }.

Record Request : Type := mkRequest
  { authorization : option string }.

Section Authentication.

(** [jwt.verify(token, process.env.JWT_SECRET)] of the jsonwebtoken
    package: the decoded payload of a token that is well formed, signed
    with the secret and not expired; it throws on any other token. *)
Variable jwt_verify : string -> Result JwtPayload.

(** [try { return jwt.verify(...) } catch { return null }] *)
Definition verifyToken (token : string) : option JwtPayload :=
  match jwt_verify token with
  | Ok decoded => Some decoded
  | Throw _ => None
  end.

Definition getContext (req : Request) : Resolver Context :=
  let authHeader :=
    match authorization req with
    | Some h => if (h =? "")%string then "" else h
    | None => ""
    end in
  let token := replace "Bearer " "" authHeader in
  if (token =? "")%string then ret {| user := None |}
  else
    match verifyToken token with
    | None => ret {| user := None |}
    | Some decoded =>
        user <- match payload_userId decoded with
                | Some id => query (prisma.user.findUnique id)
                | None =>
                    throw (PrismaClientValidationError
                             "Invalid prisma.user.findUnique() invocation")
                end ;;
        ret {| user := user |}
    end.

End Authentication.

(* ===================================================================== *)
(** ** Resolvers (resolvers.js) *)
(* ===================================================================== *)

Definition requireAuth (context : Context) : Resolver User.t :=
  match user context with
  | None =>
      throw (AuthenticationError "You must be logged in to perform this action")
  | Some u => ret u
  end.

Record TaskEdge : Type := mkTaskEdge
  { edge_cursor : string;
    node : TaskWithUser }.

Record PageInfo : Type := mkPageInfo
  { hasNextPage : bool;
    hasPreviousPage : bool;
    startCursor : arg string;
    endCursor : arg string }.

Record TaskConnection : Type := mkTaskConnection
  { edges : list TaskEdge;
    pageInfo : PageInfo;
    totalCount : Z }.

Record TasksCursorArgs : Type := mkTasksCursorArgs
  { first : arg Z;
    after : arg string;
    userId : arg string }.

Record CreateTaskInput : Type := mkCreateTaskInput
  { input_title : string;
    input_description : option string }.

(** [include: { user: true }] on the row a call returns. *)
Definition include_user (t : Task.t) : Resolver TaskWithUser :=
  query (fun db => prisma.task.with_user db t).

Module Query.

(** Get single task. *)
Definition task (id : string) (context : Context) : Resolver TaskWithUser :=
  task <- query (prisma.task.findUnique id) ;;
  match task with
  | None => throw (NotFoundError "Task not found")
  | Some task => include_user task
  end.

(** The [findMany] call of [tasksCursor]. *)
Definition tasksCursor_findMany (targetUserId : string) (first : option Z)
    (after : arg string) : FindManyArgs :=
  {| where_userId := Some targetUserId;
     take := Some (toNumber first + 1);
     cursor := match after with
               | Given a => if truthy after then Some a else None
               | _ => None
               end;
     skip := if truthy after then Some 1 else None;
     orderBy_createdAt := Some desc |}.

(** Cursor-based pagination. *)
Definition tasksCursor (args : TasksCursorArgs) (context : Context)
    : Resolver TaskConnection :=
  let first := default_param 10 (first args) in
  let after := after args in
  currentUser <- requireAuth context ;;
  let targetUserId := or_else (userId args) (User.id currentUser) in
  totalCount <- query (prisma.task.count (Some targetUserId)) ;;
  tasks <- query (fun db =>
             map (prisma.task.with_user db)
                 (prisma.task.findMany
                    (tasksCursor_findMany targetUserId first after) db)) ;;
  let hasNextPage := Z.of_nat (List.length tasks) >? toNumber first in
  let edges :=
    map (fun task => {| edge_cursor := Task.id (task_of task); node := task |})
        (slice0 tasks (toNumber first)) in
  ret {| edges := edges;
         pageInfo := {| hasNextPage := hasNextPage;
                        hasPreviousPage := truthy after;
                        startCursor := first_of edge_cursor edges;
                        endCursor := last_of edge_cursor edges |};
         totalCount := totalCount |}.

End Query.

Module Mutation.

Definition createTask (env : Env) (input : CreateTaskInput)
    (context : Context) : Resolver TaskWithUser :=
  user <- requireAuth context ;;
  let title := input_title input in
  let description := input_description input in
  if (title =? "")%string || (Z.of_nat (String.length (trim title)) <? 3)
  then throw (ValidationError "Title must be at least 3 characters")
  else
    task <- prisma.task.create env
              {| data_title := title;
                 data_description := description;
                 data_userId := User.id user |} ;;
    include_user task.

Definition updateTask (env : Env) (id : string) (input : UpdateTaskInput)
    (context : Context) : Resolver TaskWithUser :=
  user <- requireAuth context ;;
  existingTask <- query (prisma.task.findUnique id) ;;
  match existingTask with
  | None => throw (NotFoundError "Task not found")
  | Some existingTask =>
      if negb (Task.userId existingTask =? User.id user)%string
      then throw (ForbiddenError "You can only update your own tasks")
      else
        task <- prisma.task.update env id input ;;
        include_user task
  end.

Definition deleteTask (id : string) (context : Context)
    : Resolver TaskWithUser :=
  user <- requireAuth context ;;
  existingTask <- query (prisma.task.findUnique id) ;;
  match existingTask with
  | None => throw (NotFoundError "Task not found")
  | Some existingTask =>
      if negb (Task.userId existingTask =? User.id user)%string
      then throw (ForbiddenError "You can only delete your own tasks")
      else
        task <- prisma.task.delete id ;;
        include_user task
  end.

Definition toggleTaskComplete (env : Env) (id : string) (context : Context)
    : Resolver TaskWithUser :=
  user <- requireAuth context ;;
  existingTask <- query (prisma.task.findUnique id) ;;
  match existingTask with
  | None => throw (NotFoundError "Task not found")
  | Some existingTask =>
      if negb (Task.userId existingTask =? User.id user)%string
      then throw (ForbiddenError "You can only update your own tasks")
      else
        task <- prisma.task.update env id
                  {| upd_title := Undefined;
                     upd_description := Undefined;
                     upd_completed := Given (negb (Task.completed existingTask)) |} ;;
        include_user task
  end.

End Mutation.

(* ===================================================================== *)
(** ** The collection a listing pages through *)
(* ===================================================================== *)

(** The tasks of one owner, newest first: what [findMany] orders before it
    applies [cursor], [skip] and [take]. *)
Definition tasksOf (db : Db) (owner : string) : list Task.t :=
  sort_by (createdAt_le desc)
          (filter (prisma.task.matches (Some owner)) (tasks db)).

(** Index of the row a cursor names. *)
Fixpoint position (c : string) (l : list Task.t) : option nat :=
  match l with
  | [] => None
  | t :: r =>
      if (Task.id t =? c)%string then Some O
      else option_map S (position c r)
  end.

(** The rows a page may draw from: all of them without a cursor, the ones
    after the cursor's position with one; nothing is defined for a cursor
    that names no row. *)
Definition rows_after (after : arg string) (l : list Task.t)
    : option (list Task.t) :=
  match after with
  | Given a =>
      if truthy after
      then option_map (fun i => skipn (S i) l) (position a l)
      else Some l
  | _ => Some l
  end.

(** The page size the resolver works with. *)
Definition page_size (args : TasksCursorArgs) : Z :=
  toNumber (default_param 10 (first args)).

(** The task rows of a page, in order. *)
Definition items (page : TaskConnection) : list Task.t :=
  map (fun e => task_of (node e)) (edges page).

Definition edge_of (db : Db) (t : Task.t) : TaskEdge :=
  {| edge_cursor := Task.id t; node := prisma.task.with_user db t |}.

(** Primary keys are unique and, being UUIDs, not empty. *)
Definition ids_ok (db : Db) : Prop :=
  NoDup (map Task.id (tasks db)) /\
  Forall (fun t => Task.id t <> "") (tasks db).

(** Rows in newest-first order, weakly and strictly. *)
Definition newer_or_level (a b : Task.t) : Prop :=
  Task.createdAt b <= Task.createdAt a.

Definition newer (a b : Task.t) : Prop :=
  Task.createdAt b < Task.createdAt a.

(** The rows the [findMany] call of [tasksCursor] returns. *)
Definition fetched (args : TasksCursorArgs) (me : User.t) (db : Db)
    : list Task.t :=
  prisma.task.findMany
    (Query.tasksCursor_findMany (or_else (userId args) (User.id me))
       (default_param 10 (first args)) (after args)) db.

(* ===================================================================== *)
(** ** Sample data *)
(* ===================================================================== *)

Definition alice : User.t :=
  User.mk "u1" "Alice" "alice@example.com" "hash-a" 10.

Definition bob : User.t :=
  User.mk "u2" "Bob" "bob@example.com" "hash-b" 20.

Definition t1 : Task.t := Task.mk "t1" "Write report" None false 300 300 "u1".
Definition t2 : Task.t := Task.mk "t2" "Buy milk" (Some "2 litres") false 200 200 "u1".
Definition t3 : Task.t := Task.mk "t3" "Call mum" None true 100 150 "u1".
Definition t4 : Task.t := Task.mk "t4" "Fix bike" None false 250 250 "u2".

Definition sample_db : Db :=
  {| users := [alice; bob]; tasks := [t3; t4; t1; t2] |}.

Definition sample_env : Env := {| now := 400; uuid := "t5" |}.

(** Newest first, rows of one timestamp ordered by id in direction
    [dir]. *)
Definition tie_broken_by_id (dir : SortOrder) (a b : Task.t) : Prop :=
  Task.createdAt b < Task.createdAt a \/
  (Task.createdAt a = Task.createdAt b /\
   match dir with
   | asc => String.ltb (Task.id a) (Task.id b) = true
   | desc => String.ltb (Task.id b) (Task.id a) = true
   end).

(** Three tasks of one owner created at the same instant. *)
Definition tied_db : Db :=
  {| users := [alice];
     tasks := [ Task.mk "b" "second" None false 500 500 "u1";
                Task.mk "a" "first" None false 500 500 "u1";
                Task.mk "c" "third" None false 500 500 "u1" ] |}.



(** The token a request carries: the Authorization header without its
    first [Bearer ]. *)
Definition sent_token (req : Request) : string :=
  replace "Bearer " ""
    match authorization req with
    | Some h => if (h =? "")%string then "" else h
    | None => ""
    end.


(* ===================================================================== *)
(** ** Regular expressions: the pattern of [isValidEmail] *)
(* ===================================================================== *)

(** The fragment of JavaScript patterns [isValidEmail] uses: character
    classes, sequence and repetition (alternation comes with the
    derivative of a sequence). *)
Inductive regex : Type :=
| Never : regex
| Empty : regex
| Class : (ascii -> bool) -> regex
| Seq : regex -> regex -> regex
| Alt : regex -> regex -> regex
| Star : regex -> regex.

(** [r+] *)
Definition Plus (r : regex) : regex := Seq r (Star r).

Fixpoint nullable (r : regex) : bool :=
  match r with
  | Never => false
  | Empty => true
  | Class _ => false
  | Seq a b => nullable a && nullable b
  | Alt a b => nullable a || nullable b
  | Star _ => true
  end.

(** What is left of [r] after reading [c]. *)
Fixpoint derive (c : ascii) (r : regex) : regex :=
  match r with
  | Never => Never
  | Empty => Never
  | Class p => if p c then Empty else Never
  | Seq a b =>
      if nullable a
      then Alt (Seq (derive c a) b) (derive c b)
      else Seq (derive c a) b
  | Alt a b => Alt (derive c a) (derive c b)
  | Star a => Seq (derive c a) (Star a)
  end.

(** [/^r$/.test(s)]: the whole string matches [r]. *)
Fixpoint test (r : regex) (s : string) : bool :=
  match s with
  | EmptyString => nullable r
  | String c s' => test (derive c r) s'
  end.

(** The strings a pattern matches. *)
Inductive Matches : regex -> string -> Prop :=
| MEmpty : Matches Empty ""
| MClass : forall (p : ascii -> bool) c,
    p c = true -> Matches (Class p) (String c "")
| MSeq : forall a b s1 s2,
    Matches a s1 -> Matches b s2 -> Matches (Seq a b) (s1 ++ s2)%string
| MAltL : forall a b s, Matches a s -> Matches (Alt a b) s
| MAltR : forall a b s, Matches b s -> Matches (Alt a b) s
| MStarNil : forall a, Matches (Star a) ""
| MStarApp : forall a s1 s2,
    Matches a s1 -> Matches (Star a) s2 -> Matches (Star a) (s1 ++ s2)%string.

(** [[^\s@]] *)
Definition not_space_or_at (c : ascii) : bool :=
  negb (is_space c || (c =? "@")%char).

(** [/^[^\s@]+@[^\s@]+\.[^\s@]+$/] *)
Definition emailRegex : regex :=
  Seq (Plus (Class not_space_or_at))
    (Seq (Class (fun c => (c =? "@")%char))
       (Seq (Plus (Class not_space_or_at))
          (Seq (Class (fun c => (c =? ".")%char))
             (Plus (Class not_space_or_at))))).

(** Validate email format. *)
Definition isValidEmail (email : string) : bool := test emailRegex email.

(** Every character of [s] satisfies [p]. *)
Fixpoint all_chars (p : ascii -> bool) (s : string) : bool :=
  match s with
  | EmptyString => true
  | String c r => p c && all_chars p r
  end.

(** A part of an address: not empty, no white space, no [@]. *)
Definition address_part (s : string) : Prop :=
  s <> "" /\ all_chars not_space_or_at s = true.

(* ===================================================================== *)
(** ** The remaining storage calls *)
(* ===================================================================== *)

(** A user row with [include: { tasks: true }]. *)
Record UserWithTasks : Type := mkUserWithTasks
  { user_row : User.t;
    tasks_of : list Task.t }.

Definition with_tasks (db : Db) (u : User.t) : UserWithTasks :=
  {| user_row := u;
     tasks_of := filter (fun t => (Task.userId t =? User.id u)%string)
                        (tasks db) |}.

(** [prisma.user.findUnique({ where: { email } })] *)
Definition user_findUnique_email (email : string) (db : Db) : option User.t :=
  find (fun u => (User.email u =? email)%string) (users db).

(** [prisma.user.create]: the primary key and the email are unique
    columns; a clash throws P2002. *)
Definition user_create (env : Env) (name email password : string)
    : Resolver User.t :=
  fun db =>
    match prisma.user.findUnique (uuid env) db, user_findUnique_email email db with
    | None, None =>
        let u := {| User.id := uuid env;
                    User.name := name;
                    User.email := email;
                    User.password := password;
                    User.createdAt := now env |} in
        (Ok u, {| users := users db ++ [u]; tasks := tasks db |})
    | _, _ => (Throw (PrismaClientKnownRequestError "P2002"), db)
    end.

(* ===================================================================== *)
(** ** The remaining resolvers (resolvers.js) *)
(* ===================================================================== *)

Record RegisterInput : Type := mkRegisterInput
  { reg_name : string;
    reg_email : string;
    reg_password : string }.

Record LoginInput : Type := mkLoginInput
  { login_email : string;
    login_password : string }.

Record AuthPayload : Type := mkAuthPayload
  { token : string;
    auth_user : User.t }.

Module Queries.

(** Get current user (requires authentication). *)
Definition me (context : Context) : Resolver (option UserWithTasks) :=
  user <- requireAuth context ;;
  query (fun db => option_map (with_tasks db)
                     (prisma.user.findUnique (User.id user) db)).

(** Get user by ID. *)
Definition user (id : string) : Resolver UserWithTasks :=
  user <- query (prisma.user.findUnique id) ;;
  match user with
  | None => throw (NotFoundError "User not found")
  | Some user => query (fun db => with_tasks db user)
  end.

(** Get all users. *)
Definition users : Resolver (list UserWithTasks) :=
  query (fun db => map (with_tasks db) (users db)).

(** Get current user's tasks. *)
Definition myTasks (context : Context) : Resolver (list TaskWithUser) :=
  user <- requireAuth context ;;
  query (fun db =>
    map (prisma.task.with_user db)
        (prisma.task.findMany
           {| where_userId := Some (User.id user);
              take := None;
              cursor := None;
              skip := None;
              orderBy_createdAt := Some desc |} db)).

(** Offset-based pagination.  [limit] and [offset] are missing or
    numbers; the defaults are [10] and [0].  Prisma refuses a negative
    [skip], so the rows are meant for offsets that are not negative. *)
Definition tasksOffset (limit offset : option Z) (context : Context)
    : Resolver (list TaskWithUser) :=
  let limit := match limit with Some l => l | None => 10 end in
  let offset := match offset with Some o => o | None => 0 end in
  user <- requireAuth context ;;
  query (fun db =>
    map (prisma.task.with_user db)
        (prisma.task.findMany
           {| where_userId := Some (User.id user);
              take := Some limit;
              cursor := None;
              skip := Some offset;
              orderBy_createdAt := Some desc |} db)).

End Queries.

(** Field resolvers. *)
Module UserField.

Definition tasks (parent : User.t) : Resolver (list Task.t) :=
  query (prisma.task.findMany
           {| where_userId := Some (User.id parent);
              take := None;
              cursor := None;
              skip := None;
              orderBy_createdAt := Some desc |}).

End UserField.

Module TaskField.

Definition user (parent : Task.t) : Resolver (option User.t) :=
  query (prisma.user.findUnique (Task.userId parent)).

End TaskField.

Section Accounts.

(** [hashPassword], [comparePassword] and [generateToken] of
    utils/auth.js wrap bcryptjs and jsonwebtoken.  Hashing draws a salt
    and signing reads the clock, so both take what they draw as an
    argument. *)
Variable hashPassword : string -> string -> string.
Variable comparePassword : string -> string -> bool.
Variable generateToken : Z -> string -> string.

Definition register (env : Env) (salt : string) (input : RegisterInput)
    : Resolver AuthPayload :=
  let name := reg_name input in
  let email := reg_email input in
  let password := reg_password input in
  if (name =? "")%string || (Z.of_nat (String.length (trim name)) <? 2)
  then throw (ValidationError "Name must be at least 2 characters")
  else if negb (isValidEmail email)
  then throw (ValidationError "Invalid email format")
  else if Z.of_nat (String.length password) <? 6
  then throw (ValidationError "Password must be at least 6 characters")
  else
    existingUser <- query (user_findUnique_email email) ;;
    match existingUser with
    | Some _ => throw (ValidationError "User with this email already exists")
    | None =>
        let hashedPassword := hashPassword salt password in
        user <- user_create env name email hashedPassword ;;
        let token := generateToken (now env) (User.id user) in
        ret {| token := token; auth_user := user |}
    end.

Definition login (env : Env) (input : LoginInput) : Resolver AuthPayload :=
  let email := login_email input in
  let password := login_password input in
  user <- query (user_findUnique_email email) ;;
  match user with
  | None => throw (AuthenticationError "Invalid credentials")
  | Some user =>
      let isValidPassword := comparePassword password (User.password user) in
      if negb isValidPassword
      then throw (AuthenticationError "Invalid credentials")
      else
        let token := generateToken (now env) (User.id user) in
        ret {| token := token; auth_user := user |}
  end.

(** The row [register] stores. *)
Definition registered (env : Env) (salt : string) (input : RegisterInput)
    : User.t :=
  {| User.id := uuid env;
     User.name := reg_name input;
     User.email := reg_email input;
     User.password := hashPassword salt (reg_password input);
     User.createdAt := now env |}.

Definition register_accepts (input : RegisterInput) : Prop :=
  reg_name input <> "" /\
  2 <= Z.of_nat (String.length (trim (reg_name input))) /\
  isValidEmail (reg_email input) = true /\
  6 <= Z.of_nat (String.length (reg_password input)).

End Accounts.

(** Stand-ins for bcryptjs and jsonwebtoken in worked examples. *)
Definition sample_hash (salt password : string) : string :=
  ("hashed:" ++ password ++ ":" ++ salt)%string.

Definition sample_compare (password hashed : string) : bool :=
  String.prefix ("hashed:" ++ password ++ ":")%string hashed.

Definition sample_token (issued : Z) (userId : string) : string :=
  ("jwt." ++ userId)%string.

Definition sample_verify (token : string) : Result JwtPayload :=
  if String.prefix "jwt." token
  then Ok {| payload_userId :=
               Some (substring 4 (String.length token - 4) token);
             iat := 0;
             exp := 604800 |}
  else Throw (JsonWebTokenError "invalid token").

Definition carol_input : RegisterInput :=
  {| reg_name := "Carol";
     reg_email := "carol@example.com";
     reg_password := "secret1" |}.

Definition carol_env : Env := {| now := 500; uuid := "u3" |}.

(** No space character in [s]. *)
Definition no_space (s : string) : bool :=
  all_chars (fun c => negb (c =? " ")%char) s.

(** The database after [prisma.task.update] has written row [t'] under
    [id], and after [prisma.task.delete] has removed [id]. *)
Definition put_task (id : string) (t' : Task.t) (db : Db) : Db :=
  {| users := users db;
     tasks := map (fun x => if (Task.id x =? id)%string then t' else x)
                  (tasks db) |}.

Definition drop_task (id : string) (db : Db) : Db :=
  {| users := users db;
     tasks := filter (fun x => negb (Task.id x =? id)%string) (tasks db) |}.

(** [data] of the update [toggleTaskComplete] makes. *)
Definition toggle_data (existingTask : Task.t) : UpdateTaskInput :=
  {| upd_title := Undefined;
     upd_description := Undefined;
     upd_completed := Given (negb (Task.completed existingTask)) |}.

(** The row [prisma.task.create] builds for [createTask]. *)
Definition created (env : Env) (input : CreateTaskInput) (owner : User.t)
    : Task.t :=
  {| Task.id := uuid env;
     Task.title := input_title input;
     Task.description := input_description input;
     Task.completed := false;
     Task.createdAt := now env;
     Task.updatedAt := now env;
     Task.userId := User.id owner |}.

(** [createTask] accepts the title. *)
Definition title_ok (title : string) : bool :=
  negb ((title =? "")%string || (Z.of_nat (String.length (trim title)) <? 3)).

(** A rewrite of the table that keeps ids, owners and creation times. *)
Definition keeps_keys (f : Task.t -> Task.t) (l : list Task.t) : Prop :=
  forall x, In x l ->
    Task.id (f x) = Task.id x /\
    Task.userId (f x) = Task.userId x /\
    Task.createdAt (f x) = Task.createdAt x.

(** What a task mutation by [P] can have done to the database: nothing,
    one row of [P] appended under the drawn key, one row of [P]
    rewritten with its keys kept, or one row of [P] removed. *)
Inductive effect (key : string) (P : User.t) (db : Db) : Db -> Prop :=
| eff_none : effect key P db db
| eff_create : forall t,
    Task.id t = key ->
    Task.userId t = User.id P ->
    prisma.task.findUnique key db = None ->
    effect key P db {| users := users db; tasks := tasks db ++ [t] |}
| eff_write : forall id t t',
    prisma.task.findUnique id db = Some t ->
    Task.userId t = User.id P ->
    Task.id t' = Task.id t ->
    Task.userId t' = Task.userId t ->
    Task.createdAt t' = Task.createdAt t ->
    effect key P db (put_task id t' db)
| eff_delete : forall id t,
    prisma.task.findUnique id db = Some t ->
    Task.userId t = User.id P ->
    effect key P db (drop_task id db).

(** A row with its [updatedAt] set to the clock of [env]. *)
Definition touched (env : Env) (t : Task.t) : Task.t :=
  {| Task.id := Task.id t;
     Task.title := Task.title t;
     Task.description := Task.description t;
     Task.completed := Task.completed t;
     Task.createdAt := Task.createdAt t;
     Task.updatedAt := now env;
     Task.userId := Task.userId t |}.

(** Unique keys of the user table. *)
Definition users_ok (db : Db) : Prop :=
  NoDup (map User.id (users db)) /\ NoDup (map User.email (users db)).

(* ===================================================================== *)
(** ** Facts about lists and the JavaScript helpers *)
(* ===================================================================== *)

Example replace_strips_prefix :
  replace "Bearer " "" "Bearer abc.def.ghi" = "abc.def.ghi".
Proof. reflexivity. Qed.

Example replace_without_prefix : replace "Bearer " "" "abc" = "abc".
Proof. reflexivity. Qed.

Example trim_both_ends : trim "  a b  " = "a b".
Proof. reflexivity. Qed.

Example slice0_negative_end : slice0 [1; 2; 3; 4; 5] (-2) = [1; 2; 3].
Proof. reflexivity. Qed.

Example slice0_past_the_end : slice0 [1; 2; 3] 7 = [1; 2; 3].
Proof. reflexivity. Qed.

Lemma slice0_nonneg {A} (xs : list A) (n : Z) :
  0 <= n -> slice0 xs n = firstn (Z.to_nat n) xs.
Proof.
  intros Hn. unfold slice0.
  destruct (Z.ltb_spec n 0) as [H|_]; [lia|].
  destruct (Z.le_ge_cases n (Z.of_nat (List.length xs))) as [H|H].
  - now rewrite Z.min_l.
  - rewrite Z.min_r by lia. rewrite Nat2Z.id.
    rewrite !firstn_all2; auto; lia.
Qed.

Lemma slice0_map {A B} (f : A -> B) (xs : list A) (n : Z) :
  slice0 (map f xs) n = map f (slice0 xs n).
Proof.
  unfold slice0. rewrite length_map. now rewrite firstn_map.
Qed.

Lemma firstn_incl {A} (n : nat) (l : list A) : incl (firstn n l) l.
Proof.
  intros x Hx. rewrite <- (firstn_skipn n l). apply in_or_app. now left.
Qed.

Lemma skipn_incl {A} (n : nat) (l : list A) : incl (skipn n l) l.
Proof.
  intros x Hx. rewrite <- (firstn_skipn n l). apply in_or_app. now right.
Qed.

Lemma slice0_incl {A} (xs : list A) (n : Z) : incl (slice0 xs n) xs.
Proof. unfold slice0. apply firstn_incl. Qed.

Lemma first_of_map {A B C} (f : B -> C) (g : A -> B) (xs : list A) :
  first_of f (map g xs) = first_of (fun x => f (g x)) xs.
Proof. now destruct xs. Qed.

Lemma last_of_map {A B C} (f : B -> C) (g : A -> B) (xs : list A) :
  last_of f (map g xs) = last_of (fun x => f (g x)) xs.
Proof.
  induction xs as [|x [|y r] IH]; simpl in *; auto.
Qed.

Lemma last_of_snoc {A B} (f : A -> B) (xs : list A) (x : A) :
  last_of f (xs ++ [x]) = Given (f x).
Proof.
  induction xs as [|y r IH]; simpl; auto.
  destruct (r ++ [x]) eqn:E; auto.
  now destruct r.
Qed.

Lemma firstn_plus {A} (a b : nat) (l : list A) :
  firstn (a + b) l = firstn a l ++ firstn b (skipn a l).
Proof.
  revert l. induction a as [|a IH]; intros [|x l]; simpl; auto.
  - now rewrite firstn_nil.
  - now rewrite IH.
Qed.

Lemma firstn_succ_firstn {A} (n : nat) (l : list A) :
  firstn n (firstn (S n) l) = firstn n l.
Proof.
  rewrite firstn_firstn. f_equal. lia.
Qed.

(* ===================================================================== *)
(** ** Facts about ordering and cursors *)
(* ===================================================================== *)

Lemma insert_by_perm le x l : Permutation (insert_by le x l) (x :: l).
Proof.
  induction l as [|h r IH]; simpl; auto.
  destruct (le x h); auto.
  rewrite IH. apply perm_swap.
Qed.

Lemma sort_by_perm le l : Permutation (sort_by le l) l.
Proof.
  induction l as [|x r IH]; simpl; auto.
  rewrite insert_by_perm. now constructor.
Qed.

Lemma insert_desc_sorted x l :
  StronglySorted newer_or_level l ->
  StronglySorted newer_or_level (insert_by (createdAt_le desc) x l).
Proof.
  induction 1 as [|h r Hs IH Hh]; simpl.
  - repeat constructor.
  - destruct (Z.leb_spec (Task.createdAt h) (Task.createdAt x)) as [Hle|Hlt].
    + constructor; [now constructor|].
      constructor; [exact Hle|].
      eapply Forall_impl; [|exact Hh].
      unfold newer_or_level. intros; lia.
    + constructor; [exact IH|].
      eapply Permutation_Forall; [symmetry; apply insert_by_perm|].
      constructor; [unfold newer_or_level; lia|exact Hh].
Qed.

Lemma sort_desc_sorted l :
  StronglySorted newer_or_level (sort_by (createdAt_le desc) l).
Proof.
  induction l as [|x r IH]; simpl; [constructor|].
  now apply insert_desc_sorted.
Qed.

(** Rows of one timestamp come out in the order they are stored in. *)
Lemma insert_desc_stable ts x l :
  filter (fun t => Task.createdAt t =? ts)
         (insert_by (createdAt_le desc) x l) =
  filter (fun t => Task.createdAt t =? ts) (x :: l).
Proof.
  induction l as [|h r IH]; auto.
  simpl insert_by.
  destruct (Z.leb_spec (Task.createdAt h) (Task.createdAt x)) as [Hle|Hlt]; auto.
  change (filter ?p (h :: ?t)) with (if p h then h :: filter p t else filter p t).
  rewrite IH. simpl.
  destruct (Z.eqb_spec (Task.createdAt h) ts), (Z.eqb_spec (Task.createdAt x) ts);
    auto; lia.
Qed.

Lemma sort_desc_stable ts l :
  filter (fun t => Task.createdAt t =? ts) (sort_by (createdAt_le desc) l) =
  filter (fun t => Task.createdAt t =? ts) l.
Proof.
  induction l as [|x r IH]; auto.
  simpl sort_by. rewrite insert_desc_stable. simpl. now rewrite IH.
Qed.

Lemma sorted_distinct_strict l :
  StronglySorted newer_or_level l ->
  NoDup (map Task.createdAt l) ->
  StronglySorted newer l.
Proof.
  induction 1 as [|h r Hs IH Hh]; intros Hnd; [constructor|].
  simpl in Hnd. inversion Hnd as [|? ? Hnotin Hnd']; subst.
  constructor; [auto|].
  rewrite Forall_forall in *. intros t Ht.
  specialize (Hh t Ht). unfold newer, newer_or_level in *.
  assert (Task.createdAt t <> Task.createdAt h).
  { intros E. apply Hnotin. rewrite <- E. now apply in_map. }
  lia.
Qed.

Lemma position_from_cursor c l i :
  position c l = Some i -> from_cursor c l = skipn i l.
Proof.
  revert i. induction l as [|t r IH]; simpl; intros i H; [discriminate|].
  destruct (Task.id t =? c)%string.
  - now inversion H.
  - destruct (position c r) as [j|]; [|discriminate].
    inversion H; subst. simpl. now apply IH.
Qed.

Lemma position_none_from_cursor c l :
  position c l = None -> from_cursor c l = [].
Proof.
  induction l as [|t r IH]; simpl; auto.
  destruct (Task.id t =? c)%string; [discriminate|].
  destruct (position c r); [discriminate|auto].
Qed.

Lemma position_none_iff c l :
  position c l = None <-> ~ In c (map Task.id l).
Proof.
  induction l as [|t r IH]; simpl; [tauto|].
  destruct (String.eqb_spec (Task.id t) c) as [E|NE].
  - split; [discriminate|]. intros H. exfalso. apply H. now left.
  - destruct (position c r); simpl; split; try discriminate; try tauto.
    intros H. assert (Hr : ~ In c (map Task.id r)) by tauto.
    apply IH in Hr. discriminate.
Qed.

Lemma from_cursor_split l1 x l2 :
  NoDup (map Task.id (l1 ++ x :: l2)) ->
  from_cursor (Task.id x) (l1 ++ x :: l2) = x :: l2.
Proof.
  induction l1 as [|h r IH]; simpl; intros Hnd.
  - now rewrite String.eqb_refl.
  - inversion Hnd as [|? ? Hnotin Hnd']; subst.
    destruct (String.eqb_spec (Task.id h) (Task.id x)) as [E|NE]; [|auto].
    exfalso. apply Hnotin. rewrite E, map_app. apply in_or_app.
    right. now left.
Qed.

Lemma from_cursor_incl c l : incl (from_cursor c l) l.
Proof.
  induction l as [|t r IH]; simpl; [easy|].
  destruct (Task.id t =? c)%string; [easy|].
  now apply incl_tl.
Qed.

(* ===================================================================== *)
(** ** What [tasksCursor] computes *)
(* ===================================================================== *)

Lemma tasksCursor_run args me db :
  Query.tasksCursor args {| user := Some me |} db =
  (Ok {| edges := map (edge_of db) (slice0 (fetched args me db) (page_size args));
         pageInfo :=
           {| hasNextPage :=
                Z.of_nat (List.length (fetched args me db)) >? page_size args;
              hasPreviousPage := truthy (after args);
              startCursor :=
                first_of Task.id (slice0 (fetched args me db) (page_size args));
              endCursor :=
                last_of Task.id (slice0 (fetched args me db) (page_size args)) |};
         totalCount :=
           prisma.task.count (Some (or_else (userId args) (User.id me))) db |},
   db).
Proof.
  unfold Query.tasksCursor, requireAuth, bind, ret, query, fetched, page_size.
  simpl. rewrite slice0_map, map_map, length_map.
  rewrite first_of_map, last_of_map. reflexivity.
Qed.

Lemma tasksCursor_anonymous args db :
  Query.tasksCursor args {| user := None |} db =
  (Throw (AuthenticationError "You must be logged in to perform this action"),
   db).
Proof. reflexivity. Qed.

(** A page of size zero is empty and reports whether anything is
    stored. *)
Example tasksCursor_first_zero :
  value (Query.tasksCursor
           {| first := Given 0; after := Undefined; userId := Undefined |}
           {| user := Some alice |} sample_db)
  = Ok {| edges := [];
          pageInfo := {| hasNextPage := true;
                         hasPreviousPage := false;
                         startCursor := Undefined;
                         endCursor := Undefined |};
          totalCount := 3 |}.
Proof. reflexivity. Qed.

Example tasksCursor_empty_collection :
  value (Query.tasksCursor
           {| first := Given 5; after := Undefined; userId := Undefined |}
           {| user := Some alice |} {| users := [alice]; tasks := [] |})
  = Ok {| edges := [];
          pageInfo := {| hasNextPage := false;
                         hasPreviousPage := false;
                         startCursor := Undefined;
                         endCursor := Undefined |};
          totalCount := 0 |}.
Proof. reflexivity. Qed.

(** A page size that is not negative makes [findMany] walk forwards. *)
Lemma fetched_forward args me db :
  0 <= page_size args ->
  fetched args me db =
  firstn (Z.to_nat (page_size args + 1))
    (match after args with
     | Given a =>
         if truthy (after args)
         then skipn 1 (from_cursor a (tasksOf db (or_else (userId args) (User.id me))))
         else tasksOf db (or_else (userId args) (User.id me))
     | _ => tasksOf db (or_else (userId args) (User.id me))
     end).
Proof.
  intros Hn. unfold fetched, prisma.task.findMany, page_size in *.
  cbn [take cursor skip Query.tasksCursor_findMany].
  destruct (Z.ltb_spec (toNumber (default_param 10 (first args)) + 1) 0) as [H|_];
    [lia|].
  rewrite Z.abs_eq by lia.
  change (prisma.task.ordered _ db)
    with (tasksOf db (or_else (userId args) (User.id me))).
  destruct (after args) as [| |a]; simpl; auto.
  destruct (a =? "")%string; simpl; auto.
Qed.

Lemma fetched_rows_after args me db rows :
  0 <= page_size args ->
  rows_after (after args) (tasksOf db (or_else (userId args) (User.id me)))
    = Some rows ->
  fetched args me db = firstn (Z.to_nat (page_size args + 1)) rows.
Proof.
  intros Hn Hr. rewrite fetched_forward by exact Hn. f_equal.
  unfold rows_after in Hr.
  destruct (after args) as [| |a]; try (now inversion Hr).
  destruct (truthy (Given a)); [|now inversion Hr].
  destruct (position a _) as [i|] eqn:Hp; [|discriminate].
  simpl in Hr. inversion Hr; subst.
  rewrite (position_from_cursor _ _ _ Hp).
  rewrite skipn_skipn. reflexivity.
Qed.

Lemma fetched_unknown_cursor args me db a :
  after args = Given a -> a <> "" ->
  ~ In a (map Task.id (tasksOf db (or_else (userId args) (User.id me)))) ->
  fetched args me db = [].
Proof.
  intros Ha Hne Hnot.
  unfold fetched, prisma.task.findMany.
  cbn [take cursor skip Query.tasksCursor_findMany].
  change (prisma.task.ordered _ db)
    with (tasksOf db (or_else (userId args) (User.id me))).
  rewrite Ha. simpl.
  destruct (String.eqb_spec a "") as [E|_]; [contradiction|]. simpl.
  set (L := tasksOf db _) in *.
  assert (Hfwd : from_cursor a L = []).
  { apply position_none_from_cursor. now apply position_none_iff. }
  assert (Hbwd : from_cursor a (rev L) = []).
  { apply position_none_from_cursor. apply position_none_iff.
    rewrite map_rev, <- in_rev. exact Hnot. }
  destruct (_ <? 0); rewrite ?Hfwd, ?Hbwd; rewrite firstn_nil; reflexivity.
Qed.

Lemma fetched_incl args me db :
  incl (fetched args me db)
       (tasksOf db (or_else (userId args) (User.id me))).
Proof.
  unfold fetched, prisma.task.findMany.
  cbn [take cursor skip Query.tasksCursor_findMany].
  change (prisma.task.ordered _ db)
    with (tasksOf db (or_else (userId args) (User.id me))).
  set (L := tasksOf db _).
  assert (Hcur : forall l, incl l L ->
            incl (match (match after args with
                         | Given a => if truthy (after args) then Some a else None
                         | _ => None
                         end) with
                  | Some c => from_cursor c l
                  | None => l
                  end) L).
  { intros l Hl. destruct (after args) as [| |a]; auto.
    destruct (truthy (Given a)); auto.
    eapply incl_tran; [apply from_cursor_incl|exact Hl]. }
  assert (Hskip : forall l, incl l L ->
            incl (match (if truthy (after args) then Some 1 else None) with
                  | Some k => skipn (Z.to_nat k) l
                  | None => l
                  end) L).
  { intros l Hl. destruct (truthy (after args)); auto.
    eapply incl_tran; [apply skipn_incl|exact Hl]. }
  destruct (_ <? 0).
  - intros x Hx. apply in_rev in Hx. apply firstn_incl in Hx.
    apply Hskip in Hx; auto. apply Hcur.
    intros y Hy. now apply in_rev in Hy.
  - intros x Hx. apply firstn_incl in Hx.
    apply Hskip in Hx; auto. apply Hcur. apply incl_refl.
Qed.

Lemma tasksOf_In db owner t :
  In t (tasksOf db owner) <-> In t (tasks db) /\ Task.userId t = owner.
Proof.
  unfold tasksOf.
  split.
  - intros H. eapply Permutation_in in H; [|apply sort_by_perm].
    apply filter_In in H. destruct H as [H1 H2]. split; auto.
    simpl in H2. now apply String.eqb_eq.
  - intros [H1 H2]. eapply Permutation_in; [symmetry; apply sort_by_perm|].
    apply filter_In. split; auto. simpl. now apply String.eqb_eq.
Qed.

Lemma tasksOf_length db owner :
  Z.of_nat (List.length (tasksOf db owner)) = prisma.task.count (Some owner) db.
Proof.
  unfold tasksOf, prisma.task.count.
  now rewrite (Permutation_length (sort_by_perm _ _)).
Qed.

Lemma tasksOf_ids_NoDup db owner :
  ids_ok db -> NoDup (map Task.id (tasksOf db owner)).
Proof.
  intros [Hnd _]. unfold tasksOf.
  eapply Permutation_NoDup.
  - apply Permutation_map. symmetry. apply sort_by_perm.
  - induction (tasks db) as [|t r IH]; simpl; [constructor|].
    simpl in Hnd. inversion Hnd as [|? ? Hnotin Hnd']; subst.
    destruct (Task.userId t =? owner)%string; simpl; auto.
    constructor; auto.
    intros Hin. apply Hnotin.
    apply in_map_iff in Hin. destruct Hin as [y [Hy Hin]].
    apply filter_In in Hin. rewrite <- Hy. apply in_map. tauto.
Qed.

(* ===================================================================== *)
(** ** Cursor pagination *)
(* ===================================================================== *)

(** C1.  For an authenticated caller, a page size [n >= 0] and a cursor
    that is absent or names a row of the newest-first collection,
    [tasksCursor] fetches the first [n + 1] rows after the cursor's
    position (from the start without a cursor), sets [hasNextPage] exactly
    when more than [n] rows were fetched, returns the fetched rows cut to
    [n] as the page items, and sets [hasPreviousPage] exactly when [after]
    was supplied (a non-empty string: the source tests its truthiness). *)
Theorem tasksCursor_page :
  forall (db : Db) (me : User.t) (args : TasksCursorArgs) (rows : list Task.t),
    0 <= page_size args ->
    rows_after (after args) (tasksOf db (or_else (userId args) (User.id me)))
      = Some rows ->
    exists page,
      Query.tasksCursor args {| user := Some me |} db = (Ok page, db) /\
      fetched args me db = firstn (Z.to_nat (page_size args + 1)) rows /\
      (hasNextPage (pageInfo page) = true <->
       Z.of_nat (List.length (fetched args me db)) > page_size args) /\
      items page = firstn (Z.to_nat (page_size args)) (fetched args me db) /\
      (hasPreviousPage (pageInfo page) = true <->
       exists a, after args = Given a /\ a <> "").
Proof.
  intros db me args rows Hn Hrows.
  eexists. split; [apply tasksCursor_run|].
  split; [now apply fetched_rows_after|].
  split; [|split].
  - cbn [pageInfo hasNextPage]. rewrite Z.gtb_gt. reflexivity.
  - unfold items. cbn [edges]. rewrite map_map. cbn [edge_of node task_of].
    rewrite map_id. now apply slice0_nonneg.
  - cbn [pageInfo hasPreviousPage]. unfold truthy.
    destruct (after args) as [| |a].
    + split; [discriminate|]. intros [a [H _]]. discriminate.
    + split; [discriminate|]. intros [a [H _]]. discriminate.
    + destruct (String.eqb_spec a "") as [E|NE]; simpl.
      * split; [discriminate|]. intros [b [H Hb]]. inversion H; subst.
        contradiction.
      * split; [|reflexivity]. intros _. now exists a.
Qed.

Lemma tasksCursor_page_witness :
  exists page,
    Query.tasksCursor
      {| first := Given 1; after := Given "t1"; userId := Undefined |}
      {| user := Some alice |} sample_db = (Ok page, sample_db) /\
    items page = [t2] /\
    hasNextPage (pageInfo page) = true.
Proof.
  destruct (tasksCursor_page sample_db alice
              {| first := Given 1; after := Given "t1"; userId := Undefined |}
              [t2; t3])
    as [page [Hrun [Hf [Hnext [Hitems Hprev]]]]].
  - vm_compute. discriminate.
  - reflexivity.
  - exists page. split; [exact Hrun|]. split.
    + rewrite Hitems, Hf. reflexivity.
    + apply Hnext. rewrite Hf. vm_compute. reflexivity.
Defined.

(** C3, as the claim has it, fails: a cursor that names no row gives an
    ordinary, empty page and no error. *)
Lemma tasksCursor_unknown_cursor_is_no_error :
  ~ In "no-such-id" (map Task.id (tasks sample_db)) /\
  Query.tasksCursor
    {| first := Given 2; after := Given "no-such-id"; userId := Undefined |}
    {| user := Some alice |} sample_db
  = (Ok {| edges := [];
           pageInfo := {| hasNextPage := false;
                          hasPreviousPage := true;
                          startCursor := Undefined;
                          endCursor := Undefined |};
           totalCount := 3 |},
     sample_db) /\
  forall e,
    value (Query.tasksCursor
             {| first := Given 2; after := Given "no-such-id";
                userId := Undefined |}
             {| user := Some alice |} sample_db) <> Throw e.
Proof.
  split; [|split].
  - simpl. intros [H|[H|[H|[H|[]]]]]; discriminate.
  - reflexivity.
  - intros e. vm_compute. discriminate.
Qed.

(** C3, amended.  A supplied cursor that is the id of no stored task
    does not make [tasksCursor] fail: the page has no edges and no
    cursors, [hasPreviousPage] is true, [hasNextPage] is false for a page
    size that is not negative, and [totalCount] still counts the
    collection. *)
Theorem tasksCursor_unknown_cursor_empty_page :
  forall (db : Db) (me : User.t) (args : TasksCursorArgs) (a : string),
    after args = Given a ->
    a <> "" ->
    ~ In a (map Task.id (tasks db)) ->
    Query.tasksCursor args {| user := Some me |} db =
    (Ok {| edges := [];
           pageInfo := {| hasNextPage := 0 >? page_size args;
                          hasPreviousPage := true;
                          startCursor := Undefined;
                          endCursor := Undefined |};
           totalCount :=
             Z.of_nat (List.length
                         (tasksOf db (or_else (userId args) (User.id me)))) |},
     db).
Proof.
  intros db me args a Ha Hne Hnot.
  assert (Hcoll : ~ In a (map Task.id
                            (tasksOf db (or_else (userId args) (User.id me))))).
  { intros Hin. apply Hnot. apply in_map_iff in Hin.
    destruct Hin as [t [Ht Hin]]. apply tasksOf_In in Hin.
    rewrite <- Ht. apply in_map. tauto. }
  rewrite tasksCursor_run.
  rewrite (fetched_unknown_cursor args me db a Ha Hne Hcoll).
  rewrite tasksOf_length.
  unfold slice0. rewrite firstn_nil. simpl.
  rewrite Ha. unfold truthy.
  destruct (String.eqb_spec a "") as [E|_]; [contradiction|]. reflexivity.
Qed.

Lemma tasksCursor_unknown_cursor_empty_page_witness :
  Query.tasksCursor
    {| first := Given 5; after := Given "t9"; userId := Given "u2" |}
    {| user := Some alice |} sample_db =
  (Ok {| edges := [];
         pageInfo := {| hasNextPage := false;
                        hasPreviousPage := true;
                        startCursor := Undefined;
                        endCursor := Undefined |};
         totalCount := 1 |},
   sample_db).
Proof.
  apply (tasksCursor_unknown_cursor_empty_page sample_db alice
           {| first := Given 5; after := Given "t9"; userId := Given "u2" |}
           "t9").
  - reflexivity.
  - discriminate.
  - simpl. intros [H|[H|[H|[H|[]]]]]; discriminate.
Defined.

Lemma nil_or_snoc {A} (l : list A) :
  l = [] \/ exists l' x, l = l' ++ [x].
Proof.
  induction l as [|x l' _] using rev_ind; [now left|].
  right. now exists l', x.
Qed.

Lemma NoDup_map_firstn {A B} (f : A -> B) (n : nat) (l : list A) :
  NoDup (map f l) -> NoDup (map f (firstn n l)).
Proof.
  intros H. rewrite <- (firstn_skipn n l), map_app in H.
  now apply NoDup_app_remove_r in H.
Qed.

Lemma NoDup_map_app_disjoint {A B} (f : A -> B) (l1 l2 : list A) :
  NoDup (map f (l1 ++ l2)) ->
  forall t, In t l1 -> ~ In t l2.
Proof.
  induction l1 as [|h r IH]; simpl; intros Hnd t Hin; [contradiction|].
  inversion Hnd as [|? ? Hnotin Hnd']; subst.
  destruct Hin as [E|Hin]; [subst h|now apply IH].
  intros Hin2. apply Hnotin. apply in_map. apply in_or_app. now right.
Qed.

(** Pages of size [k] without a cursor: the first [k] rows. *)
Lemma first_page_items db me owner k :
  0 <= k ->
  slice0 (fetched {| first := Given k; after := Undefined; userId := owner |}
            me db) k =
  firstn (Z.to_nat k) (tasksOf db (or_else owner (User.id me))).
Proof.
  intros Hk. rewrite fetched_forward by exact Hk.
  cbn [after first userId page_size default_param toNumber].
  rewrite slice0_nonneg by exact Hk.
  replace (Z.to_nat (k + 1)) with (S (Z.to_nat k)) by lia.
  apply firstn_succ_firstn.
Qed.

(** C2.  On an unchanged database whose primary keys are unique and not
    empty, and for a collection with pairwise distinct creation
    timestamps, the page of size [k] without a cursor and the page of
    size [k] after the first page's [endCursor] are disjoint, and their
    items in sequence are the first [2k] rows (or all rows, if there are
    fewer) of the strictly newest-first collection, no id twice, none
    left out. *)
Theorem tasksCursor_two_pages :
  forall (db : Db) (me : User.t) (owner : arg string) (k : Z),
    ids_ok db ->
    NoDup (map Task.createdAt (tasksOf db (or_else owner (User.id me)))) ->
    0 <= k ->
    exists page1 page2,
      Query.tasksCursor
        {| first := Given k; after := Undefined; userId := owner |}
        {| user := Some me |} db = (Ok page1, db) /\
      Query.tasksCursor
        {| first := Given k; after := endCursor (pageInfo page1);
           userId := owner |}
        {| user := Some me |} db = (Ok page2, db) /\
      items page1 ++ items page2 =
        firstn (Z.to_nat (2 * k)) (tasksOf db (or_else owner (User.id me))) /\
      StronglySorted newer (tasksOf db (or_else owner (User.id me))) /\
      NoDup (map Task.id (items page1 ++ items page2)) /\
      (forall t, In t (items page1) -> ~ In t (items page2)).
Proof.
  intros db me owner k Hok Hts Hk.
  set (C := tasksOf db (or_else owner (User.id me))) in *.
  assert (HndC : NoDup (map Task.id C)) by now apply tasksOf_ids_NoDup.
  eexists. eexists.
  split; [apply tasksCursor_run|].
  split; [apply tasksCursor_run|].
  assert (Hcat :
    items {| edges := map (edge_of db)
               (slice0 (fetched {| first := Given k; after := Undefined;
                                   userId := owner |} me db) k);
             pageInfo := {| hasNextPage := false; hasPreviousPage := false;
                            startCursor := Undefined; endCursor := Undefined |};
             totalCount := 0 |} ++
    items {| edges := map (edge_of db)
               (slice0 (fetched {| first := Given k;
                                   after := last_of Task.id
                                     (slice0 (fetched {| first := Given k;
                                                after := Undefined;
                                                userId := owner |} me db) k);
                                   userId := owner |} me db) k);
             pageInfo := {| hasNextPage := false; hasPreviousPage := false;
                            startCursor := Undefined; endCursor := Undefined |};
             totalCount := 0 |} =
    firstn (Z.to_nat (2 * k)) C).
  { unfold items. cbn [edges]. rewrite !map_map. cbn [edge_of node task_of].
    rewrite !map_id.
    rewrite first_page_items by exact Hk. fold C.
    replace (Z.to_nat (2 * k)) with (Z.to_nat k + Z.to_nat k)%nat by lia.
    rewrite firstn_plus.
    destruct (nil_or_snoc (firstn (Z.to_nat k) C)) as [Hnil|[l' [x Hsnoc]]].
    - rewrite Hnil. cbn [last_of].
      rewrite first_page_items by exact Hk. fold C. rewrite Hnil.
      destruct (Z.to_nat k) as [|n]; [reflexivity|].
      destruct C as [|c r]; [|discriminate]. reflexivity.
    - rewrite Hsnoc, last_of_snoc.
      assert (HC : C = l' ++ x :: skipn (Z.to_nat k) C).
      { rewrite <- (firstn_skipn (Z.to_nat k) C) at 1.
        rewrite Hsnoc, <- app_assoc. reflexivity. }
      assert (Hx : Task.id x <> "").
      { destruct Hok as [_ Hne]. rewrite Forall_forall in Hne. apply Hne.
        assert (Hin : In x C).
        { rewrite HC. apply in_or_app. right. now left. }
        apply tasksOf_In in Hin. tauto. }
      rewrite fetched_forward
        by (cbn [first page_size default_param toNumber]; exact Hk).
      cbn [after first userId page_size default_param toNumber truthy].
      fold C.
      destruct (String.eqb_spec (Task.id x) "") as [E|_]; [contradiction|].
      cbn [negb].
      assert (Hfc : from_cursor (Task.id x) C = x :: skipn (Z.to_nat k) C).
      { rewrite HC at 1. apply from_cursor_split. rewrite <- HC. exact HndC. }
      rewrite Hfc. cbn [skipn].
      rewrite slice0_nonneg by exact Hk.
      replace (Z.to_nat (k + 1)) with (S (Z.to_nat k)) by lia.
      rewrite firstn_succ_firstn. reflexivity. }
  split; [exact Hcat|].
  split.
  - apply sorted_distinct_strict; [apply sort_desc_sorted|exact Hts].
  - assert (Hnd : NoDup (map Task.id (firstn (Z.to_nat (2 * k)) C)))
      by now apply NoDup_map_firstn.
    rewrite <- Hcat in Hnd.
    split; [exact Hnd|].
    now apply NoDup_map_app_disjoint with (f := Task.id).
Qed.

Lemma ids_ok_sample : ids_ok sample_db.
Proof.
  split.
  - simpl. repeat constructor; simpl; intuition discriminate.
  - repeat constructor; discriminate.
Qed.

Lemma tasksCursor_two_pages_witness :
  exists page1 page2,
    Query.tasksCursor
      {| first := Given 2; after := Undefined; userId := Undefined |}
      {| user := Some alice |} sample_db = (Ok page1, sample_db) /\
    Query.tasksCursor
      {| first := Given 2; after := endCursor (pageInfo page1);
         userId := Undefined |}
      {| user := Some alice |} sample_db = (Ok page2, sample_db) /\
    items page1 ++ items page2 = [t1; t2; t3].
Proof.
  destruct (tasksCursor_two_pages sample_db alice Undefined 2)
    as [page1 [page2 [H1 [H2 [Hcat _]]]]].
  - exact ids_ok_sample.
  - simpl. repeat constructor; simpl; intuition discriminate.
  - lia.
  - exists page1, page2. split; [exact H1|]. split; [exact H2|].
    rewrite Hcat. reflexivity.
Defined.

(* ===================================================================== *)
(** ** Looking a task up by id *)
(* ===================================================================== *)

Lemma findUnique_Some id db t :
  prisma.task.findUnique id db = Some t -> In t (tasks db) /\ Task.id t = id.
Proof.
  unfold prisma.task.findUnique. intros H. apply find_some in H.
  destruct H as [Hin Heq]. split; [exact Hin|]. now apply String.eqb_eq.
Qed.

Lemma findUnique_None id db :
  prisma.task.findUnique id db = None <-> ~ In id (map Task.id (tasks db)).
Proof.
  unfold prisma.task.findUnique. split.
  - intros H Hin. apply in_map_iff in Hin. destruct Hin as [t [Ht Hin]].
    apply (find_none _ _ H) in Hin. rewrite Ht, String.eqb_refl in Hin.
    discriminate.
  - intros H. destruct (find _ (tasks db)) as [t|] eqn:E; [|reflexivity].
    exfalso. apply H. apply find_some in E. destruct E as [Hin Heq].
    apply String.eqb_eq in Heq. rewrite <- Heq. now apply in_map.
Qed.

Lemma findUnique_In db t :
  NoDup (map Task.id (tasks db)) -> In t (tasks db) ->
  prisma.task.findUnique (Task.id t) db = Some t.
Proof.
  unfold prisma.task.findUnique.
  induction (tasks db) as [|h r IH]; simpl; intros Hnd Hin; [contradiction|].
  inversion Hnd as [|? ? Hnotin Hnd']; subst.
  destruct (String.eqb_spec (Task.id h) (Task.id t)) as [E|NE].
  - destruct Hin as [Hh|Hr]; [now subst|].
    exfalso. apply Hnotin. rewrite E. now apply in_map.
  - destruct Hin as [Hh|Hr]; [subst; contradiction|]. now apply IH.
Qed.

Lemma findUnique_after_delete id db :
  prisma.task.findUnique id
    {| users := users db;
       tasks := filter (fun x => negb (Task.id x =? id)%string) (tasks db) |}
  = None.
Proof.
  apply findUnique_None. cbn [tasks]. intros Hin.
  apply in_map_iff in Hin. destruct Hin as [t [Ht Hin]].
  apply filter_In in Hin. destruct Hin as [_ Hneq].
  rewrite Ht, String.eqb_refl in Hneq. discriminate.
Qed.

(** C10.  The single-task query looks at no caller: whatever the context,
    anonymous included, it leaves the database alone, returns the full
    row (with its user) of any stored task whoever owns it, and throws
    NotFoundError exactly when no row has the id; it throws nothing
    else. *)
Theorem task_query_unguarded :
  forall (db : Db) (context : Context) (id : string),
    Query.task id context db = Query.task id {| user := None |} db /\
    final (Query.task id context db) = db /\
    (forall t,
        NoDup (map Task.id (tasks db)) -> In t (tasks db) -> Task.id t = id ->
        value (Query.task id context db) = Ok (prisma.task.with_user db t)) /\
    (value (Query.task id context db) = Throw (NotFoundError "Task not found")
     <-> ~ In id (map Task.id (tasks db))) /\
    (forall e, value (Query.task id context db) = Throw e ->
               e = NotFoundError "Task not found").
Proof.
  intros db context id.
  unfold Query.task, include_user, bind, query, throw, value, final.
  split; [reflexivity|].
  destruct (prisma.task.findUnique id db) as [t|] eqn:E; simpl.
  - split; [reflexivity|].
    split.
    { intros t' Hnd Hin Hid. subst id.
      rewrite (findUnique_In db t' Hnd Hin) in E. now inversion E. }
    split; [|discriminate].
    split; [discriminate|].
    intros Hnot. apply findUnique_None in Hnot. congruence.
  - split; [reflexivity|].
    split.
    { intros t' Hnd Hin Hid. subst id.
      rewrite (findUnique_In db t' Hnd Hin) in E. discriminate. }
    split.
    + split; [|reflexivity]. intros _. now apply findUnique_None.
    + intros e He. now inversion He.
Qed.

Lemma task_query_unguarded_witness :
  value (Query.task "t4" {| user := None |} sample_db)
  = Ok {| task_of := t4; user_of := Some bob |}.
Proof.
  apply (proj1 (proj2 (proj2
           (task_query_unguarded sample_db {| user := None |} "t4"))) t4).
  - simpl. repeat constructor; simpl; intuition discriminate.
  - simpl. tauto.
  - reflexivity.
Defined.

(* ===================================================================== *)
(** ** Running the mutations *)
(* ===================================================================== *)

Lemma createTask_run env input P db :
  Mutation.createTask env input {| user := Some P |} db =
  if title_ok (input_title input)
  then match prisma.task.findUnique (uuid env) db with
       | Some _ => (Throw (PrismaClientKnownRequestError "P2002"), db)
       | None =>
           (Ok (prisma.task.with_user db (created env input P)),
            {| users := users db; tasks := tasks db ++ [created env input P] |})
       end
  else (Throw (ValidationError "Title must be at least 3 characters"), db).
Proof.
  unfold Mutation.createTask, include_user, requireAuth, bind, ret, query,
    throw, prisma.task.create, title_ok.
  cbn [user].
  destruct (_ || _); cbn [negb]; [reflexivity|].
  destruct (prisma.task.findUnique (uuid env) db); reflexivity.
Qed.

Lemma updateTask_run env id input P db :
  Mutation.updateTask env id input {| user := Some P |} db =
  match prisma.task.findUnique id db with
  | None => (Throw (NotFoundError "Task not found"), db)
  | Some t =>
      if (Task.userId t =? User.id P)%string
      then if prisma.task.data_refused input
           then (Throw (PrismaClientValidationError
                          "Invalid prisma.task.update() invocation"), db)
           else (Ok (prisma.task.with_user db
                       (prisma.task.apply_data env input t)),
                 put_task id (prisma.task.apply_data env input t) db)
      else (Throw (ForbiddenError "You can only update your own tasks"), db)
  end.
Proof.
  unfold Mutation.updateTask, include_user, requireAuth, bind, ret, query,
    throw, prisma.task.update.
  cbn [user].
  destruct (prisma.task.findUnique id db) as [t|] eqn:E; [|reflexivity].
  destruct (Task.userId t =? User.id P)%string; cbn [negb]; [|reflexivity].
  cbv beta. destruct (prisma.task.data_refused input); [reflexivity|].
  rewrite E. reflexivity.
Qed.

Lemma toggleTaskComplete_run env id P db :
  Mutation.toggleTaskComplete env id {| user := Some P |} db =
  match prisma.task.findUnique id db with
  | None => (Throw (NotFoundError "Task not found"), db)
  | Some t =>
      if (Task.userId t =? User.id P)%string
      then (Ok (prisma.task.with_user db
                  (prisma.task.apply_data env (toggle_data t) t)),
            put_task id (prisma.task.apply_data env (toggle_data t) t) db)
      else (Throw (ForbiddenError "You can only update your own tasks"), db)
  end.
Proof.
  unfold Mutation.toggleTaskComplete, include_user, requireAuth, bind, ret,
    query, throw, prisma.task.update.
  cbn [user].
  destruct (prisma.task.findUnique id db) as [t|] eqn:E; [|reflexivity].
  destruct (Task.userId t =? User.id P)%string; cbn [negb]; [|reflexivity].
  cbv beta. cbn [prisma.task.data_refused upd_title upd_completed].
  rewrite E. reflexivity.
Qed.

Lemma deleteTask_run id P db :
  Mutation.deleteTask id {| user := Some P |} db =
  match prisma.task.findUnique id db with
  | None => (Throw (NotFoundError "Task not found"), db)
  | Some t =>
      if (Task.userId t =? User.id P)%string
      then (Ok (prisma.task.with_user db t), drop_task id db)
      else (Throw (ForbiddenError "You can only delete your own tasks"), db)
  end.
Proof.
  unfold Mutation.deleteTask, include_user, requireAuth, bind, ret, query,
    throw, prisma.task.delete.
  cbn [user].
  destruct (prisma.task.findUnique id db) as [t|] eqn:E; [|reflexivity].
  destruct (Task.userId t =? User.id P)%string; cbn [negb]; [|reflexivity].
  cbv beta. rewrite E. reflexivity.
Qed.

(** The columns of the row an update writes. *)
Lemma apply_data_fields env d t :
  Task.id (prisma.task.apply_data env d t) = Task.id t /\
  Task.userId (prisma.task.apply_data env d t) = Task.userId t /\
  Task.createdAt (prisma.task.apply_data env d t) = Task.createdAt t /\
  Task.title (prisma.task.apply_data env d t)
    = match upd_title d with
      | Given s => s
      | _ => Task.title t
      end /\
  Task.description (prisma.task.apply_data env d t)
    = match upd_description d with
      | Given s => Some s
      | Null => None
      | Undefined => Task.description t
      end /\
  Task.completed (prisma.task.apply_data env d t)
    = match upd_completed d with
      | Given b => b
      | _ => Task.completed t
      end /\
  Task.updatedAt (prisma.task.apply_data env d t)
    = match upd_title d, upd_description d, upd_completed d with
      | Undefined, Undefined, Undefined => Task.updatedAt t
      | _, _, _ => now env
      end.
Proof.
  destruct d as [[| |s] [| |s'] [| |b]]; cbn; repeat split.
Qed.

Lemma data_refused_false d :
  upd_title d <> Null -> upd_completed d <> Null ->
  prisma.task.data_refused d = false.
Proof.
  unfold prisma.task.data_refused.
  destruct (upd_title d), (upd_completed d); intros; congruence.
Qed.

Lemma data_refused_true d :
  upd_title d = Null \/ upd_completed d = Null ->
  prisma.task.data_refused d = true.
Proof.
  unfold prisma.task.data_refused.
  intros [H|H]; rewrite H; [reflexivity|].
  destruct (upd_title d); reflexivity.
Qed.

(* ===================================================================== *)
(** ** Mutations *)
(* ===================================================================== *)

(** C4.  When the caller is authenticated and is not the owner of a
    stored task, [updateTask], [deleteTask] and [toggleTaskComplete] on
    that task throw ForbiddenError (code FORBIDDEN) and the database is
    what it was, so no field of the task has changed. *)
Theorem non_owner_mutation_forbidden :
  forall (env : Env) (db : Db) (R : Task.t) (P : User.t)
         (input : UpdateTaskInput),
    NoDup (map Task.id (tasks db)) ->
    In R (tasks db) ->
    User.id P <> Task.userId R ->
    Mutation.updateTask env (Task.id R) input {| user := Some P |} db =
      (Throw (ForbiddenError "You can only update your own tasks"), db) /\
    Mutation.deleteTask (Task.id R) {| user := Some P |} db =
      (Throw (ForbiddenError "You can only delete your own tasks"), db) /\
    Mutation.toggleTaskComplete env (Task.id R) {| user := Some P |} db =
      (Throw (ForbiddenError "You can only update your own tasks"), db) /\
    (forall m, code (ForbiddenError m) = "FORBIDDEN") /\
    prisma.task.findUnique (Task.id R) db = Some R.
Proof.
  intros env db R P input Hnd Hin Hneq.
  pose proof (findUnique_In db R Hnd Hin) as Hfind.
  unfold Mutation.updateTask, Mutation.deleteTask, Mutation.toggleTaskComplete,
    requireAuth, bind, ret, query, throw.
  cbn [user]. rewrite Hfind.
  destruct (String.eqb_spec (Task.userId R) (User.id P)) as [E|_];
    [congruence|].
  cbn [negb]. repeat split; reflexivity.
Qed.

Lemma non_owner_mutation_forbidden_witness :
  Mutation.updateTask sample_env "t1"
    {| upd_title := Given "hijacked"; upd_description := Undefined;
       upd_completed := Undefined |}
    {| user := Some bob |} sample_db =
  (Throw (ForbiddenError "You can only update your own tasks"), sample_db).
Proof.
  apply (non_owner_mutation_forbidden sample_env sample_db t1 bob
           {| upd_title := Given "hijacked"; upd_description := Undefined;
              upd_completed := Undefined |}).
  - simpl. repeat constructor; simpl; intuition discriminate.
  - simpl. tauto.
  - discriminate.
Defined.

(** C5.  For an authenticated caller, [updateTask], [deleteTask] and
    [toggleTaskComplete] fetch the row by id and then: throw
    NotFoundError when there is none; throw ForbiddenError when the
    caller is not its owner; otherwise make the storage call and return
    the row as stored (for a delete, the row that was removed).  The
    update writes the columns its data sets and, unless the data is
    empty, the time of the call; data the storage call refuses (a [null]
    title or completion flag) surfaces as that call's error with nothing
    written.  After a delete by the owner, the same delete again throws
    NotFoundError. *)
Theorem mutations_fetch_check_write :
  forall (env : Env) (db : Db) (P : User.t) (id : string)
         (input : UpdateTaskInput),
    (prisma.task.findUnique id db = None ->
       Mutation.updateTask env id input {| user := Some P |} db =
         (Throw (NotFoundError "Task not found"), db) /\
       Mutation.deleteTask id {| user := Some P |} db =
         (Throw (NotFoundError "Task not found"), db) /\
       Mutation.toggleTaskComplete env id {| user := Some P |} db =
         (Throw (NotFoundError "Task not found"), db)) /\
    (forall t,
       prisma.task.findUnique id db = Some t ->
       Task.userId t <> User.id P ->
       Mutation.updateTask env id input {| user := Some P |} db =
         (Throw (ForbiddenError "You can only update your own tasks"), db) /\
       Mutation.deleteTask id {| user := Some P |} db =
         (Throw (ForbiddenError "You can only delete your own tasks"), db) /\
       Mutation.toggleTaskComplete env id {| user := Some P |} db =
         (Throw (ForbiddenError "You can only update your own tasks"), db)) /\
    (forall t,
       prisma.task.findUnique id db = Some t ->
       Task.userId t = User.id P ->
       (upd_title input <> Null ->
        upd_completed input <> Null ->
        exists row,
          Mutation.updateTask env id input {| user := Some P |} db =
            (Ok {| task_of := row;
                   user_of := prisma.user.findUnique (Task.userId t) db |},
             {| users := users db;
                tasks := map (fun x => if (Task.id x =? id)%string
                                       then row else x) (tasks db) |}) /\
          Task.id row = Task.id t /\
          Task.userId row = Task.userId t /\
          Task.createdAt row = Task.createdAt t /\
          Task.title row = match upd_title input with
                           | Given s => s
                           | _ => Task.title t
                           end /\
          Task.description row = match upd_description input with
                                 | Given s => Some s
                                 | Null => None
                                 | Undefined => Task.description t
                                 end /\
          Task.completed row = match upd_completed input with
                               | Given b => b
                               | _ => Task.completed t
                               end /\
          Task.updatedAt row =
            match upd_title input, upd_description input,
                  upd_completed input with
            | Undefined, Undefined, Undefined => Task.updatedAt t
            | _, _, _ => now env
            end) /\
       (upd_title input = Null \/ upd_completed input = Null ->
        Mutation.updateTask env id input {| user := Some P |} db =
          (Throw (PrismaClientValidationError
                    "Invalid prisma.task.update() invocation"), db)) /\
       Mutation.deleteTask id {| user := Some P |} db =
         (Ok {| task_of := t;
                user_of := prisma.user.findUnique (Task.userId t) db |},
          {| users := users db;
             tasks := filter (fun x => negb (Task.id x =? id)%string)
                             (tasks db) |}) /\
       Mutation.toggleTaskComplete env id {| user := Some P |} db =
         (Ok {| task_of :=
                  {| Task.id := Task.id t;
                     Task.title := Task.title t;
                     Task.description := Task.description t;
                     Task.completed := negb (Task.completed t);
                     Task.createdAt := Task.createdAt t;
                     Task.updatedAt := now env;
                     Task.userId := Task.userId t |};
                user_of := prisma.user.findUnique (Task.userId t) db |},
          {| users := users db;
             tasks := map (fun x => if (Task.id x =? id)%string
                                    then {| Task.id := Task.id t;
                                            Task.title := Task.title t;
                                            Task.description := Task.description t;
                                            Task.completed := negb (Task.completed t);
                                            Task.createdAt := Task.createdAt t;
                                            Task.updatedAt := now env;
                                            Task.userId := Task.userId t |}
                                    else x) (tasks db) |}) /\
       Mutation.deleteTask id {| user := Some P |}
         (final (Mutation.deleteTask id {| user := Some P |} db)) =
         (Throw (NotFoundError "Task not found"),
          final (Mutation.deleteTask id {| user := Some P |} db))).
Proof.
  intros env db P id input.
  rewrite updateTask_run, toggleTaskComplete_run, !deleteTask_run.
  split; [|split].
  - intros Hnone. rewrite Hnone. repeat split; reflexivity.
  - intros t Hsome Hneq. rewrite Hsome.
    destruct (String.eqb_spec (Task.userId t) (User.id P)) as [E|_];
      [contradiction|].
    repeat split; reflexivity.
  - intros t Hsome Hown. rewrite Hsome.
    destruct (String.eqb_spec (Task.userId t) (User.id P)) as [_|NE];
      [|contradiction].
    split; [|split; [|split; [|split]]].
    + intros Ht Hc. rewrite (data_refused_false input Ht Hc).
      exists (prisma.task.apply_data env input t).
      destruct (apply_data_fields env input t)
        as [Hi [Hu [Hcr [Hti [Hde [Hco Hup]]]]]].
      split.
      { unfold prisma.task.with_user, put_task. now rewrite Hu. }
      repeat split; assumption.
    + intros Hnull. now rewrite (data_refused_true input Hnull).
    + reflexivity.
    + reflexivity.
    + cbn [final snd]. unfold drop_task.
      rewrite findUnique_after_delete. reflexivity.
Qed.

Lemma mutations_fetch_check_write_witness :
  Mutation.deleteTask "t2" {| user := Some alice |}
    (final (Mutation.deleteTask "t2" {| user := Some alice |} sample_db)) =
  (Throw (NotFoundError "Task not found"),
   {| users := [alice; bob]; tasks := [t3; t4; t1] |}).
Proof.
  apply (proj2 (proj2 (mutations_fetch_check_write sample_env sample_db alice
                         "t2"
                         {| upd_title := Undefined; upd_description := Undefined;
                            upd_completed := Undefined |})) t2).
  - reflexivity.
  - reflexivity.
Defined.

(** An update whose data sets nothing writes nothing, and one with a
    [null] title is refused by the storage call. *)
Example updateTask_empty_data :
  Mutation.updateTask sample_env "t3"
    {| upd_title := Undefined; upd_description := Undefined;
       upd_completed := Undefined |}
    {| user := Some alice |} sample_db =
  (Ok {| task_of := t3; user_of := Some alice |}, sample_db).
Proof. reflexivity. Qed.

Example updateTask_null_title :
  Mutation.updateTask sample_env "t3"
    {| upd_title := Null; upd_description := Given "soon";
       upd_completed := Undefined |}
    {| user := Some alice |} sample_db =
  (Throw (PrismaClientValidationError
            "Invalid prisma.task.update() invocation"), sample_db).
Proof. reflexivity. Qed.

(** C6.  [createTask] by an authenticated caller [P], given a fresh
    primary key, either rejects the title (empty, or shorter than three
    characters once trimmed) and stores nothing, or stores and returns a
    row whose owner is [P]; its input carries a title and a description
    and nothing that could name another owner. *)
Theorem createTask_owner_is_caller :
  forall (env : Env) (db : Db) (P : User.t) (input : CreateTaskInput),
    prisma.task.findUnique (uuid env) db = None ->
    (Mutation.createTask env input {| user := Some P |} db =
       (Throw (ValidationError "Title must be at least 3 characters"), db) /\
     (input_title input = "" \/
      Z.of_nat (String.length (trim (input_title input))) < 3))
    \/
    (exists t,
       Mutation.createTask env input {| user := Some P |} db =
         (Ok {| task_of := t; user_of := prisma.user.findUnique (User.id P) db |},
          {| users := users db; tasks := tasks db ++ [t] |}) /\
       Task.userId t = User.id P /\
       Task.id t = uuid env /\
       Task.title t = input_title input /\
       Task.description t = input_description input /\
       Task.completed t = false /\
       3 <= Z.of_nat (String.length (trim (input_title input)))).
Proof.
  intros env db P input Hfresh.
  unfold Mutation.createTask, include_user, requireAuth, bind, ret, query,
    throw, prisma.task.create.
  cbn [user].
  destruct (String.eqb_spec (input_title input) "") as [E|NE]; cbn [orb].
  - left. split; [reflexivity|now left].
  - destruct (Z.ltb_spec (Z.of_nat (String.length (trim (input_title input)))) 3)
      as [Hlt|Hge].
    + left. split; [reflexivity|now right].
    + right. rewrite Hfresh. eexists. split; [reflexivity|].
      repeat split; auto.
Qed.

Lemma createTask_owner_is_caller_witness :
  exists t,
    Mutation.createTask sample_env
      {| input_title := "  Plan trip "; input_description := None |}
      {| user := Some bob |} sample_db =
      (Ok {| task_of := t; user_of := Some bob |},
       {| users := [alice; bob]; tasks := [t3; t4; t1; t2; t] |}) /\
    Task.userId t = "u2".
Proof.
  destruct (createTask_owner_is_caller sample_env sample_db bob
              {| input_title := "  Plan trip "; input_description := None |})
    as [[Hbad _]|[t [Hrun [Howner _]]]].
  - reflexivity.
  - vm_compute in Hbad. discriminate.
  - exists t. split; [exact Hrun|exact Howner].
Defined.

(* ===================================================================== *)
(** ** Resolving the caller *)
(* ===================================================================== *)

Lemma substring_whole s : substring 0 (String.length s) s = s.
Proof.
  induction s as [|c r IH]; simpl; [reflexivity|]. now rewrite IH.
Qed.

Lemma replace_Bearer token :
  replace "Bearer " "" ("Bearer " ++ token)%string = token.
Proof.
  cbn -[substring String.length Nat.sub].
  assert (Hp : String.prefix "" token = true) by now destruct token.
  rewrite Hp. cbn. rewrite Nat.sub_0_r. apply substring_whole.
Qed.


Lemma user_findUnique_None id db :
  ~ In id (map User.id (users db)) -> prisma.user.findUnique id db = None.
Proof.
  unfold prisma.user.findUnique. intros H.
  destruct (find _ (users db)) as [u|] eqn:E; [|reflexivity].
  exfalso. apply H. apply find_some in E. destruct E as [Hin Heq].
  apply String.eqb_eq in Heq. rewrite <- Heq. now apply in_map.
Qed.

Lemma user_findUnique_In id db :
  In id (map User.id (users db)) ->
  exists u, prisma.user.findUnique id db = Some u.
Proof.
  unfold prisma.user.findUnique. intros H.
  destruct (find _ (users db)) as [u|] eqn:E; [now exists u|].
  exfalso. apply in_map_iff in H. destruct H as [u [Hu Hin]].
  apply (find_none _ _ E) in Hin. rewrite Hu, String.eqb_refl in Hin.
  discriminate.
Qed.

Lemma getContext_run jwt_verify req db :
  getContext jwt_verify req db =
  if (sent_token req =? "")%string then (Ok {| user := None |}, db)
  else
    match jwt_verify (sent_token req) with
    | Throw _ => (Ok {| user := None |}, db)
    | Ok decoded =>
        match payload_userId decoded with
        | Some id => (Ok {| user := prisma.user.findUnique id db |}, db)
        | None =>
            (Throw (PrismaClientValidationError
                      "Invalid prisma.user.findUnique() invocation"), db)
        end
    end.
Proof.
  unfold getContext, sent_token, verifyToken, bind, ret, query, throw.
  destruct (_ =? "")%string; [reflexivity|].
  destruct (jwt_verify _) as [decoded|e]; [|reflexivity].
  destruct (payload_userId decoded); reflexivity.
Qed.

Lemma sent_token_Bearer token :
  sent_token {| authorization := Some ("Bearer " ++ token)%string |} = token.
Proof.
  unfold sent_token. cbn [authorization].
  change (if ("Bearer " ++ token =? "")%string
          then "" else ("Bearer " ++ token)%string)
    with ("Bearer " ++ token)%string.
  apply replace_Bearer.
Qed.




(* ===================================================================== *)
(** ** Email validation *)
(* ===================================================================== *)

Lemma append_empty_inv (s1 s2 : string) :
  (s1 ++ s2)%string = "" -> s1 = "" /\ s2 = "".
Proof. destruct s1; simpl; [auto|discriminate]. Qed.

Lemma append_empty_r (s : string) : (s ++ "")%string = s.
Proof. induction s as [|c r IH]; simpl; [reflexivity|now rewrite IH]. Qed.

Lemma append_assoc (a b c : string) :
  ((a ++ b) ++ c)%string = (a ++ (b ++ c))%string.
Proof. induction a as [|x r IH]; simpl; [reflexivity|now rewrite IH]. Qed.

Lemma Matches_Seq_inv a b s :
  Matches (Seq a b) s ->
  exists s1 s2, s = (s1 ++ s2)%string /\ Matches a s1 /\ Matches b s2.
Proof. intros H. inversion H; subst. eauto. Qed.

Lemma Matches_Class_inv p s :
  Matches (Class p) s -> exists c, s = String c "" /\ p c = true.
Proof. intros H. inversion H; subst. eauto. Qed.

Lemma nullable_Matches r : nullable r = true <-> Matches r "".
Proof.
  split.
  - induction r; simpl; intros H; try discriminate.
    + constructor.
    + apply andb_prop in H. destruct H as [Ha Hb].
      change "" with ("" ++ "")%string. constructor; auto.
    + apply orb_prop in H. destruct H; [apply MAltL|apply MAltR]; auto.
    + constructor.
  - intros H. remember "" as s eqn:Es.
    induction H; simpl; auto; try discriminate.
    + apply append_empty_inv in Es. destruct Es. now rewrite IHMatches1, IHMatches2.
    + now rewrite IHMatches.
    + rewrite IHMatches by assumption. apply orb_true_r.
Qed.

Lemma derive_sound c r :
  forall s, Matches (derive c r) s -> Matches r (String c s).
Proof.
  induction r as [| |p|a IHa b IHb|a IHa b IHb|a IHa]; simpl; intros s H.
  - inversion H.
  - inversion H.
  - destruct (p c) eqn:Hp; inversion H; subst. now constructor.
  - assert (Hleft : forall s, Matches (Seq (derive c a) b) s ->
                              Matches (Seq a b) (String c s)).
    { intros s0 H0. apply Matches_Seq_inv in H0.
      destruct H0 as [s1 [s2 [E [H1 H2]]]]. subst s0.
      change (String c (s1 ++ s2)) with (String c s1 ++ s2)%string.
      constructor; auto. }
    destruct (nullable a) eqn:Hn; [|now apply Hleft].
    inversion H; subst; [now apply Hleft|].
    change (String c s) with ("" ++ String c s)%string.
    constructor; [now apply nullable_Matches|auto].
  - inversion H; subst; [apply MAltL|apply MAltR]; auto.
  - apply Matches_Seq_inv in H. destruct H as [s1 [s2 [E [H1 H2]]]]. subst s.
    change (String c (s1 ++ s2)) with (String c s1 ++ s2)%string.
    constructor; auto.
Qed.

Lemma derive_complete c r s :
  Matches r (String c s) -> Matches (derive c r) s.
Proof.
  intros H. remember (String c s) as cs eqn:E. revert s E.
  induction H as [|p c0 Hp|a b s1 s2 H1 IH1 H2 IH2|a b s0 H0 IH0|a b s0 H0 IH0
                  |a|a s1 s2 H1 IH1 H2 IH2]; intros s E; simpl.
  - discriminate.
  - inversion E; subst. rewrite Hp. constructor.
  - destruct s1 as [|c1 s1'].
    + simpl in E. subst s2.
      assert (Hn : nullable a = true) by now apply nullable_Matches.
      rewrite Hn. apply MAltR. now apply IH2.
    + simpl in E. inversion E; subst.
      assert (Hs : Matches (Seq (derive c a) b) (s1' ++ s2)%string)
        by (constructor; auto).
      destruct (nullable a); [now apply MAltL|exact Hs].
  - apply MAltL. now apply IH0.
  - apply MAltR. now apply IH0.
  - discriminate.
  - destruct s1 as [|c1 s1'].
    + simpl in E. now apply IH2.
    + simpl in E. inversion E; subst. constructor; auto.
Qed.

Lemma test_Matches r s : test r s = true <-> Matches r s.
Proof.
  revert r. induction s as [|c s IH]; intros r; simpl.
  - apply nullable_Matches.
  - rewrite IH. split; [apply derive_sound|apply derive_complete].
Qed.

Lemma Star_Class_all p s :
  Matches (Star (Class p)) s <-> all_chars p s = true.
Proof.
  split.
  - intros H. remember (Star (Class p)) as r eqn:Er.
    induction H; try discriminate; auto.
    inversion Er; subst.
    apply Matches_Class_inv in H. destruct H as [c [E Hp]]. subst s1.
    simpl. rewrite Hp. now apply IHMatches2.
  - induction s as [|c s IH]; simpl; intros H; [constructor|].
    apply andb_prop in H. destruct H as [Hp Hs].
    change (String c s) with (String c "" ++ s)%string.
    constructor; [now constructor|auto].
Qed.

Lemma Plus_Class_all p s :
  Matches (Plus (Class p)) s <-> s <> "" /\ all_chars p s = true.
Proof.
  unfold Plus. split.
  - intros H. apply Matches_Seq_inv in H.
    destruct H as [s1 [s2 [E [H1 H2]]]]. subst s.
    apply Matches_Class_inv in H1. destruct H1 as [c [E Hp]]. subst s1.
    apply Star_Class_all in H2. simpl. rewrite Hp, H2.
    split; [discriminate|reflexivity].
  - intros [Hne H]. destruct s as [|c s]; [contradiction|].
    simpl in H. apply andb_prop in H. destruct H as [Hp Hs].
    change (String c s) with (String c "" ++ s)%string.
    constructor; [now constructor|now apply Star_Class_all].
Qed.

(** X1.  [isValidEmail] accepts exactly the strings [a@b.c] whose three
    parts are non-empty and free of white space and [@]. *)
Theorem isValidEmail_shape :
  forall email,
    isValidEmail email = true <->
    exists a b c,
      email = (a ++ "@" ++ b ++ "." ++ c)%string /\
      address_part a /\ address_part b /\ address_part c.
Proof.
  intros email. unfold isValidEmail, address_part. rewrite test_Matches.
  unfold emailRegex. split.
  - intros H.
    apply Matches_Seq_inv in H. destruct H as [a [r1 [E1 [Ha H]]]].
    apply Matches_Seq_inv in H. destruct H as [at_ [r2 [E2 [Hat H]]]].
    apply Matches_Seq_inv in H. destruct H as [b [r3 [E3 [Hb H]]]].
    apply Matches_Seq_inv in H. destruct H as [dot [c [E4 [Hdot Hc]]]].
    apply Matches_Class_inv in Hat. destruct Hat as [x [Ex Hx]].
    apply Matches_Class_inv in Hdot. destruct Hdot as [y [Ey Hy]].
    apply Ascii.eqb_eq in Hx. apply Ascii.eqb_eq in Hy. subst.
    exists a, b, c. split; [reflexivity|].
    split; [now apply Plus_Class_all|].
    split; now apply Plus_Class_all.
  - intros [a [b [c [E [Ha [Hb Hc]]]]]]. subst email.
    constructor; [now apply Plus_Class_all|].
    change ("@" ++ b ++ "." ++ c)%string
      with (String "@" "" ++ (b ++ "." ++ c))%string.
    constructor; [now constructor|].
    constructor; [now apply Plus_Class_all|].
    change ("." ++ c)%string with (String "." "" ++ c)%string.
    constructor; [now constructor|now apply Plus_Class_all].
Qed.

Lemma isValidEmail_shape_witness : isValidEmail "ann@mail.org" = true.
Proof.
  apply (proj2 (isValidEmail_shape "ann@mail.org")).
  exists "ann", "mail", "org".
  repeat split; try discriminate; reflexivity.
Defined.

Example isValidEmail_accepts : isValidEmail "ann.lee@mail.example.org" = true.
Proof. reflexivity. Qed.

Example isValidEmail_no_dot : isValidEmail "ann@localhost" = false.
Proof. reflexivity. Qed.

Example isValidEmail_two_ats : isValidEmail "a@b@c.d" = false.
Proof. reflexivity. Qed.

Example isValidEmail_space : isValidEmail "ann lee@mail.org" = false.
Proof. reflexivity. Qed.

(* ===================================================================== *)
(** ** Accounts: register and login *)
(* ===================================================================== *)

Lemma user_findUnique_email_Some email db u :
  user_findUnique_email email db = Some u ->
  In u (users db) /\ User.email u = email.
Proof.
  unfold user_findUnique_email. intros H. apply find_some in H.
  destruct H as [Hin Heq]. split; [exact Hin|]. now apply String.eqb_eq.
Qed.

Lemma user_findUnique_email_None email db :
  user_findUnique_email email db = None <->
  ~ In email (map User.email (users db)).
Proof.
  unfold user_findUnique_email. split.
  - intros H Hin. apply in_map_iff in Hin. destruct Hin as [u [Hu Hin]].
    apply (find_none _ _ H) in Hin. rewrite Hu, String.eqb_refl in Hin.
    discriminate.
  - intros H. destruct (find _ (users db)) as [u|] eqn:E; [|reflexivity].
    exfalso. apply H. apply find_some in E. destruct E as [Hin Heq].
    apply String.eqb_eq in Heq. rewrite <- Heq. now apply in_map.
Qed.

Lemma find_app_new {A} (p : A -> bool) (l : list A) (x : A) :
  find p l = None -> p x = true -> find p (l ++ [x]) = Some x.
Proof.
  induction l as [|h r IH]; simpl; intros Hnone Hx.
  - now rewrite Hx.
  - destruct (p h); [discriminate|auto].
Qed.

Lemma find_app_old {A} (p : A -> bool) (l : list A) (x y : A) :
  find p l = Some y -> find p (l ++ [x]) = Some y.
Proof.
  induction l as [|h r IH]; simpl; intros H; [discriminate|].
  destruct (p h); auto.
Qed.

Lemma user_findUnique_None_iff id db :
  prisma.user.findUnique id db = None <-> ~ In id (map User.id (users db)).
Proof.
  split; [|apply user_findUnique_None].
  intros H Hin. destruct (user_findUnique_In _ _ Hin) as [u Hu]. congruence.
Qed.

Section AccountFacts.

Variable hashPassword : string -> string -> string.
Variable comparePassword : string -> string -> bool.
Variable generateToken : Z -> string -> string.

Lemma register_run env salt input db :
  register_accepts input ->
  register hashPassword generateToken env salt input db =
  match user_findUnique_email (reg_email input) db with
  | Some _ =>
      (Throw (ValidationError "User with this email already exists"), db)
  | None =>
      match prisma.user.findUnique (uuid env) db with
      | None =>
          (Ok {| token := generateToken (now env) (uuid env);
                 auth_user := registered hashPassword env salt input |},
           {| users := users db ++ [registered hashPassword env salt input];
              tasks := tasks db |})
      | Some _ => (Throw (PrismaClientKnownRequestError "P2002"), db)
      end
  end.
Proof.
  intros [Hname [Htrim [Hemail Hpw]]].
  unfold register, bind, ret, query, throw, user_create.
  destruct (String.eqb_spec (reg_name input) "") as [E|_]; [contradiction|].
  destruct (Z.ltb_spec (Z.of_nat (String.length (trim (reg_name input)))) 2)
    as [H|_]; [lia|].
  rewrite Hemail.
  destruct (Z.ltb_spec (Z.of_nat (String.length (reg_password input))) 6)
    as [H|_]; [lia|].
  cbn [orb negb].
  destruct (user_findUnique_email (reg_email input) db) eqn:Ee; [reflexivity|].
  rewrite Ee.
  destruct (prisma.user.findUnique (uuid env) db); reflexivity.
Qed.

(** X2.  With an acceptable input, an email no stored user has and a
    fresh primary key, [register] appends one user row that carries the
    hash of the password (not the password), and returns it with a token
    generated for its id. *)
Theorem register_stores_hashed :
  forall env salt input db,
    register_accepts input ->
    ~ In (reg_email input) (map User.email (users db)) ->
    ~ In (uuid env) (map User.id (users db)) ->
    register hashPassword generateToken env salt input db =
    (Ok {| token := generateToken (now env) (uuid env);
           auth_user := registered hashPassword env salt input |},
     {| users := users db ++ [registered hashPassword env salt input];
        tasks := tasks db |}) /\
    User.password (registered hashPassword env salt input)
      = hashPassword salt (reg_password input).
Proof.
  intros env salt input db Hacc Hemail Hid.
  rewrite register_run by exact Hacc.
  apply user_findUnique_email_None in Hemail.
  apply user_findUnique_None_iff in Hid.
  rewrite Hemail, Hid. split; reflexivity.
Qed.

(** X3.  [register] checks, in this order, the name (empty, or shorter
    than two characters once trimmed), the email format, the password
    length (below six) and whether the email is taken; each failure is a
    ValidationError with its own message and nothing is stored. *)
Theorem register_rejects :
  forall env salt input db,
    (reg_name input = "" \/
     Z.of_nat (String.length (trim (reg_name input))) < 2 ->
     register hashPassword generateToken env salt input db =
     (Throw (ValidationError "Name must be at least 2 characters"), db)) /\
    (reg_name input <> "" ->
     2 <= Z.of_nat (String.length (trim (reg_name input))) ->
     isValidEmail (reg_email input) = false ->
     register hashPassword generateToken env salt input db =
     (Throw (ValidationError "Invalid email format"), db)) /\
    (reg_name input <> "" ->
     2 <= Z.of_nat (String.length (trim (reg_name input))) ->
     isValidEmail (reg_email input) = true ->
     Z.of_nat (String.length (reg_password input)) < 6 ->
     register hashPassword generateToken env salt input db =
     (Throw (ValidationError "Password must be at least 6 characters"), db)) /\
    (register_accepts input ->
     In (reg_email input) (map User.email (users db)) ->
     register hashPassword generateToken env salt input db =
     (Throw (ValidationError "User with this email already exists"), db)).
Proof.
  intros env salt input db.
  split; [|split; [|split]].
  - intros H. unfold register, throw.
    destruct (String.eqb_spec (reg_name input) "") as [E|NE]; [reflexivity|].
    destruct (Z.ltb_spec (Z.of_nat (String.length (trim (reg_name input)))) 2)
      as [Hlt|Hge]; [reflexivity|].
    destruct H; [contradiction|lia].
  - intros Hname Htrim Hemail. unfold register, throw.
    destruct (String.eqb_spec (reg_name input) "") as [E|_]; [contradiction|].
    destruct (Z.ltb_spec (Z.of_nat (String.length (trim (reg_name input)))) 2)
      as [Hlt|_]; [lia|].
    rewrite Hemail. reflexivity.
  - intros Hname Htrim Hemail Hpw. unfold register, throw.
    destruct (String.eqb_spec (reg_name input) "") as [E|_]; [contradiction|].
    destruct (Z.ltb_spec (Z.of_nat (String.length (trim (reg_name input)))) 2)
      as [Hlt|_]; [lia|].
    rewrite Hemail.
    destruct (Z.ltb_spec (Z.of_nat (String.length (reg_password input))) 6)
      as [_|Hge]; [reflexivity|lia].
  - intros Hacc Hin. rewrite register_run by exact Hacc.
    destruct (user_findUnique_email (reg_email input) db) eqn:E; [reflexivity|].
    apply user_findUnique_email_None in E. contradiction.
Qed.

Lemma register_final env salt input db :
  final (register hashPassword generateToken env salt input db) = db \/
  (final (register hashPassword generateToken env salt input db)
     = {| users := users db ++ [registered hashPassword env salt input];
          tasks := tasks db |} /\
   ~ In (reg_email input) (map User.email (users db)) /\
   ~ In (uuid env) (map User.id (users db))).
Proof.
  unfold register, bind, ret, query, throw, user_create, final.
  destruct (_ || _); [now left|].
  destruct (negb _); [now left|].
  destruct (_ <? 6); [now left|].
  destruct (user_findUnique_email (reg_email input) db) eqn:Ee;
    rewrite ?Ee; [now left|].
  destruct (prisma.user.findUnique (uuid env) db) eqn:Ei; [now left|].
  right. split; [reflexivity|].
  split; [now apply user_findUnique_email_None|
          now apply user_findUnique_None_iff].
Qed.

(** X4.  Whatever its input and outcome, [register] keeps the ids and
    the emails of the user table unique and leaves the task table
    alone. *)
Theorem register_keeps_users_unique :
  forall env salt input db,
    users_ok db ->
    users_ok (final (register hashPassword generateToken env salt input db)) /\
    tasks (final (register hashPassword generateToken env salt input db))
      = tasks db.
Proof.
  intros env salt input db [Hid Hemail].
  destruct (register_final env salt input db) as [E|[E [Hne Hni]]];
    rewrite E; [now split|].
  split; [|reflexivity].
  unfold users_ok. cbn [users]. rewrite !map_app. cbn [map registered User.id User.email].
  split.
  - apply NoDup_app; [exact Hid|repeat constructor; auto|].
    intros a Ha [Hb|[]]. subst a. contradiction.
  - apply NoDup_app; [exact Hemail|repeat constructor; auto|].
    intros a Ha [Hb|[]]. subst a. contradiction.
Qed.

(** X5.  [login] changes nothing in the database.  It succeeds exactly
    when a stored user has the email and [comparePassword] accepts the
    password against that user's stored hash, returning that user with a
    token generated for its id; an unknown email and a wrong password
    give the same AuthenticationError. *)
Theorem login_outcome :
  forall env input db,
    (exists u,
        user_findUnique_email (login_email input) db = Some u /\
        In u (users db) /\
        User.email u = login_email input /\
        comparePassword (login_password input) (User.password u) = true /\
        login comparePassword generateToken env input db =
        (Ok {| token := generateToken (now env) (User.id u);
               auth_user := u |}, db))
    \/
    ((~ In (login_email input) (map User.email (users db)) \/
      exists u,
        user_findUnique_email (login_email input) db = Some u /\
        comparePassword (login_password input) (User.password u) = false) /\
     login comparePassword generateToken env input db =
     (Throw (AuthenticationError "Invalid credentials"), db)).
Proof.
  intros env input db. unfold login, bind, ret, query, throw.
  destruct (user_findUnique_email (login_email input) db) as [u|] eqn:E.
  - destruct (comparePassword (login_password input) (User.password u)) eqn:Hc.
    + left. exists u. apply user_findUnique_email_Some in E as Hu.
      destruct Hu as [Hin Hmail]. cbn [negb].
      repeat split; auto.
    + right. cbn [negb].
      split; [|reflexivity]. right. exists u. now split.
  - right. split; [|reflexivity].
    left. now apply user_findUnique_email_None.
Qed.

(** X6.  After a successful [register], [login] with the same email and
    password returns the registered user and a token for its id,
    provided [comparePassword] accepts a password against its own
    hash. *)
Theorem register_then_login :
  forall env salt input env' db,
    (forall s p, comparePassword p (hashPassword s p) = true) ->
    register_accepts input ->
    ~ In (reg_email input) (map User.email (users db)) ->
    ~ In (uuid env) (map User.id (users db)) ->
    login comparePassword generateToken env'
      {| login_email := reg_email input;
         login_password := reg_password input |}
      (final (register hashPassword generateToken env salt input db)) =
    (Ok {| token := generateToken (now env') (uuid env);
           auth_user := registered hashPassword env salt input |},
     final (register hashPassword generateToken env salt input db)).
Proof.
  intros env salt input env' db Hbcrypt Hacc Hemail Hid.
  rewrite register_run by exact Hacc.
  apply user_findUnique_email_None in Hemail as Hfree.
  apply user_findUnique_None_iff in Hid as Hfresh.
  rewrite Hfree, Hfresh. cbn [final snd].
  unfold login, bind, ret, query, throw. cbn [login_email login_password].
  unfold user_findUnique_email. cbn [users].
  rewrite (find_app_new _ _ (registered hashPassword env salt input)).
  - cbn [registered User.password User.id]. rewrite Hbcrypt. reflexivity.
  - now apply user_findUnique_email_None.
  - cbn [registered User.email]. apply String.eqb_refl.
Qed.

End AccountFacts.

Lemma carol_accepted : register_accepts carol_input.
Proof.
  repeat split; try discriminate; vm_compute; discriminate.
Qed.

Lemma register_stores_hashed_witness :
  register sample_hash sample_token carol_env "salt" carol_input sample_db =
  (Ok {| token := "jwt.u3";
         auth_user := User.mk "u3" "Carol" "carol@example.com"
                              "hashed:secret1:salt" 500 |},
   {| users := [alice; bob;
                User.mk "u3" "Carol" "carol@example.com" "hashed:secret1:salt" 500];
      tasks := tasks sample_db |}).
Proof.
  apply (register_stores_hashed sample_hash sample_token carol_env "salt"
           carol_input sample_db).
  - exact carol_accepted.
  - simpl. intros [H|[H|[]]]; discriminate.
  - simpl. intros [H|[H|[]]]; discriminate.
Defined.

Lemma register_rejects_witness :
  register sample_hash sample_token carol_env "salt"
    {| reg_name := "Al"; reg_email := "alice@example.com";
       reg_password := "longenough" |} sample_db =
  (Throw (ValidationError "User with this email already exists"), sample_db).
Proof.
  apply (register_rejects sample_hash sample_token carol_env "salt"
           {| reg_name := "Al"; reg_email := "alice@example.com";
              reg_password := "longenough" |} sample_db).
  - repeat split; try discriminate; vm_compute; discriminate.
  - simpl. now left.
Defined.

Lemma users_ok_sample : users_ok sample_db.
Proof.
  split; simpl; repeat constructor; simpl; intuition discriminate.
Qed.

Lemma register_keeps_users_unique_witness :
  users_ok (final (register sample_hash sample_token carol_env "salt"
                     carol_input sample_db)).
Proof.
  apply (register_keeps_users_unique sample_hash sample_token carol_env "salt"
           carol_input sample_db).
  exact users_ok_sample.
Defined.

Lemma prefix_append (a b : string) : String.prefix a (a ++ b)%string = true.
Proof.
  induction a as [|c r IH]; simpl; [now destruct b|].
  destruct (ascii_dec c c) as [_|NE]; [exact IH|contradiction].
Qed.

Lemma sample_compare_hash s p : sample_compare p (sample_hash s p) = true.
Proof.
  unfold sample_compare, sample_hash.
  replace ("hashed:" ++ p ++ ":" ++ s)%string
    with (("hashed:" ++ p ++ ":") ++ s)%string.
  - apply prefix_append.
  - simpl. do 7 f_equal. now rewrite append_assoc.
Qed.

Lemma register_then_login_witness :
  login sample_compare sample_token {| now := 600; uuid := "unused" |}
    {| login_email := "carol@example.com"; login_password := "secret1" |}
    (final (register sample_hash sample_token carol_env "salt" carol_input
              sample_db)) =
  (Ok {| token := "jwt.u3";
         auth_user := User.mk "u3" "Carol" "carol@example.com"
                              "hashed:secret1:salt" 500 |},
   final (register sample_hash sample_token carol_env "salt" carol_input
            sample_db)).
Proof.
  apply (register_then_login sample_hash sample_compare sample_token
           carol_env "salt" carol_input {| now := 600; uuid := "unused" |}
           sample_db).
  - intros s p. apply sample_compare_hash.
  - exact carol_accepted.
  - simpl. intros [H|[H|[]]]; discriminate.
  - simpl. intros [H|[H|[]]]; discriminate.
Defined.

(* ===================================================================== *)
(** ** From a token to a context *)
(* ===================================================================== *)

Lemma getContext_Bearer jwt_verify token db :
  token <> "" ->
  getContext jwt_verify {| authorization := Some ("Bearer " ++ token)%string |} db
  = match jwt_verify token with
    | Ok decoded =>
        match payload_userId decoded with
        | Some id => (Ok {| user := prisma.user.findUnique id db |}, db)
        | None =>
            (Throw (PrismaClientValidationError
                      "Invalid prisma.user.findUnique() invocation"), db)
        end
    | Throw _ => (Ok {| user := None |}, db)
    end.
Proof.
  intros Hne. rewrite getContext_run, sent_token_Bearer.
  apply String.eqb_neq in Hne. rewrite Hne.
  destruct (jwt_verify token); reflexivity.
Qed.

Lemma prefix_split (a s : string) :
  String.prefix a s = true -> exists r, s = (a ++ r)%string.
Proof.
  revert s. induction a as [|c a IH]; intros s H.
  - now exists s.
  - destruct s as [|d s]; simpl in H; [discriminate|].
    destruct (ascii_dec c d) as [E|NE]; [|discriminate].
    subst d. destruct (IH s H) as [r Hr]. exists r. simpl. now rewrite Hr.
Qed.

Lemma all_chars_append p (a b : string) :
  all_chars p (a ++ b)%string = all_chars p a && all_chars p b.
Proof.
  induction a as [|c a IH]; simpl; [reflexivity|].
  now rewrite IH, andb_assoc.
Qed.

Lemma replace_cons pat rep c r :
  String.prefix pat (String c r) = false ->
  replace pat rep (String c r) = String c (replace pat rep r).
Proof. intros H. cbn [replace]. now rewrite H. Qed.

Lemma replace_Bearer_absent (s : string) :
  no_space s = true -> replace "Bearer " "" s = s.
Proof.
  unfold no_space.
  induction s as [|c r IH]; intros H; [reflexivity|].
  assert (Hp : String.prefix "Bearer " (String c r) = false).
  { destruct (String.prefix "Bearer " (String c r)) eqn:E; [|reflexivity].
    apply prefix_split in E. destruct E as [t Ht].
    rewrite Ht, all_chars_append in H. discriminate. }
  rewrite replace_cons by exact Hp.
  simpl in H. apply andb_prop in H. now rewrite IH.
Qed.

(** X7.  A request without an Authorization header, with an empty one or
    with the bare scheme is anonymous, whatever the verifier would say;
    and a token sent without the [Bearer ] scheme is treated exactly like
    the same token sent with it. *)
Theorem getContext_header_forms :
  forall (jwt_verify : string -> Result JwtPayload) (db : Db),
    getContext jwt_verify {| authorization := None |} db
      = (Ok {| user := None |}, db) /\
    getContext jwt_verify {| authorization := Some "" |} db
      = (Ok {| user := None |}, db) /\
    getContext jwt_verify {| authorization := Some "Bearer " |} db
      = (Ok {| user := None |}, db) /\
    (forall token,
        no_space token = true ->
        getContext jwt_verify {| authorization := Some token |} db =
        getContext jwt_verify
          {| authorization := Some ("Bearer " ++ token)%string |} db).
Proof.
  intros jwt_verify db.
  split; [reflexivity|]. split; [reflexivity|]. split; [reflexivity|].
  intros token Hns. unfold getContext. cbn [authorization].
  change (if ("Bearer " ++ token =? "")%string
          then "" else ("Bearer " ++ token)%string)
    with ("Bearer " ++ token)%string.
  rewrite replace_Bearer.
  destruct (String.eqb_spec token "") as [E|NE].
  - subst token. reflexivity.
  - rewrite (replace_Bearer_absent token Hns).
    destruct (String.eqb_spec token "") as [E|_]; [contradiction|].
    reflexivity.
Qed.

Lemma getContext_header_forms_witness :
  getContext sample_verify {| authorization := Some "jwt.u1" |} sample_db =
  getContext sample_verify {| authorization := Some "Bearer jwt.u1" |}
    sample_db.
Proof.
  apply (getContext_header_forms sample_verify sample_db).
  reflexivity.
Defined.

(** X8.  The token a successful [register] returns authenticates as the
    registered user: sent as a bearer token against the resulting
    database, [getContext] resolves it to the new row, provided the
    verifier decodes a generated token to the id it was generated
    for. *)
Theorem register_token_authenticates :
  forall (hashPassword : string -> string -> string)
         (generateToken : Z -> string -> string)
         (jwt_verify : string -> Result JwtPayload)
         env salt input db decoded,
    jwt_verify (generateToken (now env) (uuid env)) = Ok decoded ->
    payload_userId decoded = Some (uuid env) ->
    generateToken (now env) (uuid env) <> "" ->
    register_accepts input ->
    ~ In (reg_email input) (map User.email (users db)) ->
    ~ In (uuid env) (map User.id (users db)) ->
    exists payload db',
      register hashPassword generateToken env salt input db
        = (Ok payload, db') /\
      getContext jwt_verify
        {| authorization := Some ("Bearer " ++ token payload)%string |} db'
        = (Ok {| user := Some (auth_user payload) |}, db').
Proof.
  intros hashPassword generateToken jwt_verify env salt input db decoded
         Hjwt Hsub Htok Hacc Hemail Hid.
  rewrite register_run by exact Hacc.
  apply user_findUnique_email_None in Hemail.
  apply user_findUnique_None_iff in Hid as Hfresh.
  rewrite Hemail, Hfresh.
  eexists. eexists. split; [reflexivity|].
  cbn [token auth_user].
  rewrite getContext_Bearer by exact Htok.
  rewrite Hjwt, Hsub.
  unfold prisma.user.findUnique. cbn [users].
  rewrite (find_app_new _ _ (registered hashPassword env salt input)).
  - reflexivity.
  - exact Hfresh.
  - cbn [registered User.id]. apply String.eqb_refl.
Qed.

Lemma register_token_authenticates_witness :
  exists payload db',
    register sample_hash sample_token carol_env "salt" carol_input sample_db
      = (Ok payload, db') /\
    getContext sample_verify
      {| authorization := Some ("Bearer " ++ token payload)%string |} db'
      = (Ok {| user := Some (auth_user payload) |}, db').
Proof.
  apply (register_token_authenticates sample_hash sample_token sample_verify
           carol_env "salt" carol_input sample_db
           {| payload_userId := Some "u3"; iat := 0; exp := 604800 |}).
  - reflexivity.
  - reflexivity.
  - discriminate.
  - exact carol_accepted.
  - simpl. intros [H|[H|[]]]; discriminate.
  - simpl. intros [H|[H|[]]]; discriminate.
Defined.

(* ===================================================================== *)
(** ** Who may call what *)
(* ===================================================================== *)


(* ===================================================================== *)
(** ** Reading users *)
(* ===================================================================== *)

Lemma user_findUnique_stored db u :
  NoDup (map User.id (users db)) -> In u (users db) ->
  prisma.user.findUnique (User.id u) db = Some u.
Proof.
  unfold prisma.user.findUnique.
  induction (users db) as [|h r IH]; simpl; intros Hnd Hin; [contradiction|].
  inversion Hnd as [|? ? Hnotin Hnd']; subst.
  destruct (String.eqb_spec (User.id h) (User.id u)) as [E|NE].
  - destruct Hin as [Hh|Hr]; [now subst|].
    exfalso. apply Hnotin. rewrite E. now apply in_map.
  - destruct Hin as [Hh|Hr]; [subst; contradiction|]. now apply IH.
Qed.

Lemma with_tasks_In db u t :
  In t (tasks_of (with_tasks db u)) <->
  In t (tasks db) /\ Task.userId t = User.id u.
Proof.
  unfold with_tasks. cbn [tasks_of]. rewrite filter_In.
  now rewrite String.eqb_eq.
Qed.

(** X10.  [me] looks the caller up again by id: it returns the stored
    row with that id (whatever else the context row says) together with
    exactly the tasks that row owns, and [null] when no stored user has
    the caller's id; the database is not changed. *)
Theorem me_returns_stored_row :
  forall (db : Db) (caller : User.t),
    (forall u,
        NoDup (map User.id (users db)) ->
        In u (users db) ->
        User.id u = User.id caller ->
        Queries.me {| user := Some caller |} db
          = (Ok (Some (with_tasks db u)), db) /\
        forall t, In t (tasks_of (with_tasks db u)) <->
                  In t (tasks db) /\ Task.userId t = User.id caller) /\
    (~ In (User.id caller) (map User.id (users db)) ->
     Queries.me {| user := Some caller |} db = (Ok None, db)).
Proof.
  intros db caller. unfold Queries.me, requireAuth, bind, ret, query.
  cbn [user]. split.
  - intros u Hnd Hin Hid. rewrite <- Hid.
    rewrite (user_findUnique_stored db u Hnd Hin). split; [reflexivity|].
    intros t. apply with_tasks_In.
  - intros Hnot. now rewrite user_findUnique_None.
Qed.

Lemma me_returns_stored_row_witness :
  Queries.me {| user := Some (User.mk "u1" "stale name" "" "" 0) |} sample_db
  = (Ok (Some {| user_row := alice; tasks_of := [t3; t1; t2] |}), sample_db).
Proof.
  apply (proj1 (me_returns_stored_row sample_db
                  (User.mk "u1" "stale name" "" "" 0)) alice).
  - simpl. repeat constructor; simpl; intuition discriminate.
  - simpl. tauto.
  - reflexivity.
Defined.

(** X11.  The [user] query takes no context at all: it throws
    NotFoundError exactly when no stored user has the id, throws nothing
    else, and otherwise returns the stored row with exactly the tasks it
    owns; the database is not changed. *)
Theorem user_query_outcome :
  forall (db : Db) (id : string),
    final (Queries.user id db) = db /\
    (value (Queries.user id db) = Throw (NotFoundError "User not found")
     <-> ~ In id (map User.id (users db))) /\
    (forall e, value (Queries.user id db) = Throw e ->
               e = NotFoundError "User not found") /\
    (forall u,
        NoDup (map User.id (users db)) -> In u (users db) -> User.id u = id ->
        value (Queries.user id db) = Ok (with_tasks db u) /\
        forall t, In t (tasks_of (with_tasks db u)) <->
                  In t (tasks db) /\ Task.userId t = id).
Proof.
  intros db id. unfold Queries.user, bind, query, throw, value, final.
  destruct (prisma.user.findUnique id db) as [u|] eqn:E; cbn [fst snd].
  - split; [reflexivity|].
    split.
    { split; [discriminate|]. intros Hnot.
      apply user_findUnique_None in Hnot. congruence. }
    split; [discriminate|].
    intros u' Hnd Hin Hid. subst id.
    rewrite (user_findUnique_stored db u' Hnd Hin) in E. inversion E; subst.
    split; [reflexivity|]. intros t. apply with_tasks_In.
  - split; [reflexivity|].
    split.
    { split; [|reflexivity]. intros _. now apply user_findUnique_None_iff. }
    split.
    { intros e He. now inversion He. }
    intros u' Hnd Hin Hid. subst id.
    rewrite (user_findUnique_stored db u' Hnd Hin) in E. discriminate.
Qed.

Lemma user_query_outcome_witness :
  value (Queries.user "u2" sample_db)
  = Ok {| user_row := bob; tasks_of := [t4] |}.
Proof.
  apply (proj2 (proj2 (proj2 (user_query_outcome sample_db "u2"))) bob).
  - simpl. repeat constructor; simpl; intuition discriminate.
  - simpl. tauto.
  - reflexivity.
Defined.

(* ===================================================================== *)
(** ** Listings of one's own tasks *)
(* ===================================================================== *)

Lemma myTasks_run db me :
  Queries.myTasks {| user := Some me |} db =
  (Ok (map (prisma.task.with_user db) (tasksOf db (User.id me))), db).
Proof. reflexivity. Qed.

Lemma map_task_of_with_user db l :
  map task_of (map (prisma.task.with_user db) l) = l.
Proof. rewrite map_map. cbn [prisma.task.with_user task_of]. apply map_id. Qed.

Lemma tasksOffset_run db me limit offset :
  0 <= limit -> 0 <= offset ->
  Queries.tasksOffset (Some limit) (Some offset) {| user := Some me |} db =
  (Ok (map (prisma.task.with_user db)
           (firstn (Z.to_nat limit)
                   (skipn (Z.to_nat offset) (tasksOf db (User.id me))))), db).
Proof.
  intros Hl Ho.
  unfold Queries.tasksOffset, requireAuth, bind, ret, query,
    prisma.task.findMany.
  cbn [user take cursor skip].
  destruct (Z.ltb_spec limit 0) as [H|_]; [lia|].
  rewrite Z.abs_eq by exact Hl. reflexivity.
Qed.

(** X12.  [myTasks] returns every task of the caller and no other,
    newest first, each with its user; it is the page [tasksCursor] gives
    without a cursor once [first] reaches the number of tasks, and that
    page reports no next page. *)
Theorem myTasks_is_the_whole_listing :
  forall (db : Db) (me : User.t),
    exists rows,
      Queries.myTasks {| user := Some me |} db = (Ok rows, db) /\
      map task_of rows = tasksOf db (User.id me) /\
      (forall t, In t (map task_of rows) <->
                 In t (tasks db) /\ Task.userId t = User.id me) /\
      StronglySorted newer_or_level (map task_of rows) /\
      forall n,
        Z.of_nat (List.length rows) <= n ->
        exists page,
          Query.tasksCursor
            {| first := Given n; after := Undefined; userId := Undefined |}
            {| user := Some me |} db = (Ok page, db) /\
          map node (edges page) = rows /\
          hasNextPage (pageInfo page) = false.
Proof.
  intros db me. eexists. split; [apply myTasks_run|].
  rewrite map_task_of_with_user.
  split; [reflexivity|].
  split; [intros t; apply tasksOf_In|].
  split; [apply sort_desc_sorted|].
  intros n Hn. rewrite length_map in Hn.
  eexists. split; [apply tasksCursor_run|].
  assert (Hn0 : 0 <= n) by lia.
  assert (Hf : fetched {| first := Given n; after := Undefined;
                          userId := Undefined |} me db
               = tasksOf db (User.id me)).
  { rewrite fetched_forward by exact Hn0.
    cbn [after userId or_else page_size first default_param toNumber].
    apply firstn_all2. lia. }
  cbn [edges pageInfo hasNextPage page_size first default_param toNumber].
  rewrite Hf. split.
  - rewrite map_map. cbn [edge_of node].
    rewrite slice0_nonneg by exact Hn0.
    rewrite firstn_all2 by lia. reflexivity.
  - rewrite Z.gtb_ltb. apply Z.ltb_ge. exact Hn.
Qed.

Lemma myTasks_is_the_whole_listing_witness :
  exists rows,
    Queries.myTasks {| user := Some alice |} sample_db = (Ok rows, sample_db) /\
    map task_of rows = [t1; t2; t3] /\
    exists page,
      Query.tasksCursor
        {| first := Given 3; after := Undefined; userId := Undefined |}
        {| user := Some alice |} sample_db = (Ok page, sample_db) /\
      map node (edges page) = rows /\
      hasNextPage (pageInfo page) = false.
Proof.
  destruct (myTasks_is_the_whole_listing sample_db alice)
    as [rows [Hrun [Hrows [_ [_ Hpage]]]]].
  exists rows. split; [exact Hrun|]. split; [exact Hrows|].
  apply (Hpage 3).
  rewrite <- (length_map task_of), Hrows. simpl. lia.
Defined.

(** X13.  Offset pages tile the listing: for a limit and an offset that
    are not negative, [tasksOffset] returns the [limit] rows that follow
    the first [offset] rows of the caller's newest-first listing, so a
    page of [a] rows at [o] followed by a page of [b] rows at [o + a] is
    the page of [a + b] rows at [o]. *)
Theorem tasksOffset_pages_tile :
  forall (db : Db) (me : User.t) (a b o : Z),
    0 <= a -> 0 <= b -> 0 <= o ->
    exists p1 p2 p,
      Queries.tasksOffset (Some a) (Some o) {| user := Some me |} db
        = (Ok p1, db) /\
      Queries.tasksOffset (Some b) (Some (o + a)) {| user := Some me |} db
        = (Ok p2, db) /\
      Queries.tasksOffset (Some (a + b)) (Some o) {| user := Some me |} db
        = (Ok p, db) /\
      map task_of p1 =
        firstn (Z.to_nat a) (skipn (Z.to_nat o) (tasksOf db (User.id me))) /\
      p1 ++ p2 = p.
Proof.
  intros db me a b o Ha Hb Ho.
  eexists. eexists. eexists.
  split; [apply tasksOffset_run; lia|].
  split; [apply tasksOffset_run; lia|].
  split; [apply tasksOffset_run; lia|].
  split; [apply map_task_of_with_user|].
  rewrite <- map_app. f_equal.
  replace (Z.to_nat (a + b)) with (Z.to_nat a + Z.to_nat b)%nat by lia.
  rewrite firstn_plus, skipn_skipn.
  replace (Z.to_nat (o + a)) with (Z.to_nat a + Z.to_nat o)%nat by lia.
  reflexivity.
Qed.

Lemma tasksOffset_pages_tile_witness :
  exists p1 p2 p,
    Queries.tasksOffset (Some 1) (Some 0) {| user := Some alice |} sample_db
      = (Ok p1, sample_db) /\
    Queries.tasksOffset (Some 2) (Some 1) {| user := Some alice |} sample_db
      = (Ok p2, sample_db) /\
    Queries.tasksOffset (Some 3) (Some 0) {| user := Some alice |} sample_db
      = (Ok p, sample_db) /\
    map task_of p1 = [t1] /\
    p1 ++ p2 = p.
Proof.
  apply (tasksOffset_pages_tile sample_db alice 1 2 0); lia.
Defined.

Lemma position_nth_error l i x :
  NoDup (map Task.id l) -> nth_error l i = Some x ->
  position (Task.id x) l = Some i.
Proof.
  revert i. induction l as [|h r IH]; intros i Hnd Hn.
  - destruct i; discriminate.
  - simpl in Hnd. inversion Hnd as [|? ? Hnotin Hnd']; subst.
    destruct i as [|i]; simpl in *.
    + inversion Hn; subst. now rewrite String.eqb_refl.
    + destruct (String.eqb_spec (Task.id h) (Task.id x)) as [E|NE].
      * exfalso. apply Hnotin. rewrite E. apply in_map.
        eapply nth_error_In; eauto.
      * now rewrite (IH i Hnd' Hn).
Qed.

Lemma rows_after_stored db owner i x :
  ids_ok db ->
  nth_error (tasksOf db owner) i = Some x ->
  rows_after (Given (Task.id x)) (tasksOf db owner)
    = Some (skipn (S i) (tasksOf db owner)).
Proof.
  intros Hok Hn.
  assert (Hx : Task.id x <> "").
  { destruct Hok as [_ Hne]. rewrite Forall_forall in Hne. apply Hne.
    apply nth_error_In in Hn. apply tasksOf_In in Hn. tauto. }
  unfold rows_after, truthy.
  destruct (String.eqb_spec (Task.id x) "") as [E|_]; [contradiction|].
  cbn [negb].
  rewrite (position_nth_error _ i x); [reflexivity| |exact Hn].
  now apply tasksOf_ids_NoDup.
Qed.

(** X14.  Cursor and offset pages agree: with unique, non-empty primary
    keys, the page of [k] rows after the cursor of the row at index [i]
    of the caller's listing holds the same rows as the offset page with
    limit [k] and offset [i + 1]. *)
Theorem cursor_page_is_offset_page :
  forall (db : Db) (me : User.t) (k : Z) (i : nat) (x : Task.t),
    ids_ok db ->
    0 <= k ->
    nth_error (tasksOf db (User.id me)) i = Some x ->
    exists page rows,
      Query.tasksCursor
        {| first := Given k; after := Given (Task.id x); userId := Undefined |}
        {| user := Some me |} db = (Ok page, db) /\
      Queries.tasksOffset (Some k) (Some (Z.of_nat i + 1))
        {| user := Some me |} db = (Ok rows, db) /\
      map node (edges page) = rows.
Proof.
  intros db me k i x Hok Hk Hn.
  eexists. eexists.
  split; [apply tasksCursor_run|].
  split; [apply tasksOffset_run; lia|].
  cbn [edges]. rewrite map_map. cbn [edge_of node]. f_equal.
  rewrite (fetched_rows_after _ me db (skipn (S i) (tasksOf db (User.id me)))).
  - cbn [page_size first default_param toNumber].
    rewrite slice0_nonneg by exact Hk.
    replace (Z.to_nat (k + 1)) with (S (Z.to_nat k)) by lia.
    rewrite firstn_succ_firstn.
    replace (Z.to_nat (Z.of_nat i + 1)) with (S i) by lia. reflexivity.
  - exact Hk.
  - cbn [after userId or_else]. now apply rows_after_stored.
Qed.

Lemma cursor_page_is_offset_page_witness :
  exists page rows,
    Query.tasksCursor
      {| first := Given 1; after := Given "t1"; userId := Undefined |}
      {| user := Some alice |} sample_db = (Ok page, sample_db) /\
    Queries.tasksOffset (Some 1) (Some 1) {| user := Some alice |} sample_db
      = (Ok rows, sample_db) /\
    map node (edges page) = rows.
Proof.
  apply (cursor_page_is_offset_page sample_db alice 1 0 t1).
  - exact ids_ok_sample.
  - lia.
  - reflexivity.
Defined.

(** X15.  The field resolvers agree with the rows the queries include:
    [Task.user] returns the user [include: { user: true }] attaches, and
    [User.tasks] returns the tasks [include: { tasks: true }] attaches,
    rearranged newest first. *)
Theorem field_resolvers_agree_with_include :
  forall (db : Db) (u : User.t) (t : Task.t),
    TaskField.user t db = (Ok (user_of (prisma.task.with_user db t)), db) /\
    exists rows,
      UserField.tasks u db = (Ok rows, db) /\
      Permutation rows (tasks_of (with_tasks db u)) /\
      StronglySorted newer_or_level rows.
Proof.
  intros db u t. split; [reflexivity|].
  exists (tasksOf db (User.id u)).
  split; [reflexivity|].
  split; [apply sort_by_perm|apply sort_desc_sorted].
Qed.

(* ===================================================================== *)
(** ** More about pages *)
(* ===================================================================== *)

Lemma fetched_length_bound args me db :
  Z.of_nat (List.length (fetched args me db)) <= Z.abs (page_size args + 1).
Proof.
  unfold fetched, prisma.task.findMany, page_size.
  cbn [take cursor skip Query.tasksCursor_findMany].
  set (n := toNumber (default_param 10 (first args)) + 1).
  destruct (n <? 0); rewrite ?length_rev, length_firstn; lia.
Qed.

Lemma first_of_Undefined {A B} (f : A -> B) (l : list A) :
  first_of f l = Undefined <-> l = [].
Proof. destruct l; simpl; split; intros H; auto; discriminate. Qed.

Lemma last_of_Undefined {A B} (f : A -> B) (l : list A) :
  last_of f l = Undefined <-> l = [].
Proof.
  destruct (nil_or_snoc l) as [E|[l' [x E]]]; subst.
  - simpl. tauto.
  - rewrite last_of_snoc. split; [discriminate|].
    intros H. now destruct l'.
Qed.

(** X16.  For a page size [n] that is not negative and any cursor, a
    page never holds more than [n] edges; a page that reports a next
    page is full; each edge's cursor is the id of its task;
    [startCursor] and [endCursor] are the cursors of the first and last
    edge and are absent exactly when the page is empty; and
    [totalCount] is the size of the whole collection, whatever the
    cursor and the page size. *)
Theorem tasksCursor_page_shape :
  forall (db : Db) (me : User.t) (args : TasksCursorArgs),
    0 <= page_size args ->
    exists page,
      Query.tasksCursor args {| user := Some me |} db = (Ok page, db) /\
      Z.of_nat (List.length (edges page)) <= page_size args /\
      (hasNextPage (pageInfo page) = true ->
       Z.of_nat (List.length (edges page)) = page_size args) /\
      Forall (fun e => edge_cursor e = Task.id (task_of (node e)))
             (edges page) /\
      startCursor (pageInfo page) = first_of edge_cursor (edges page) /\
      endCursor (pageInfo page) = last_of edge_cursor (edges page) /\
      (startCursor (pageInfo page) = Undefined <-> edges page = []) /\
      (endCursor (pageInfo page) = Undefined <-> edges page = []) /\
      totalCount page =
        Z.of_nat (List.length
                    (tasksOf db (or_else (userId args) (User.id me)))).
Proof.
  intros db me args Hn.
  eexists. split; [apply tasksCursor_run|].
  cbn [edges pageInfo hasNextPage startCursor endCursor totalCount].
  rewrite slice0_nonneg by exact Hn.
  rewrite length_map, length_firstn.
  split; [lia|].
  split; [rewrite Z.gtb_gt; lia|].
  split.
  { apply Forall_forall. intros e He. apply in_map_iff in He.
    destruct He as [t [Ht _]]. now subst e. }
  split; [now rewrite first_of_map|].
  split; [now rewrite last_of_map|].
  split.
  { rewrite first_of_Undefined. split; intros H; [now rewrite H|].
    now apply map_eq_nil in H. }
  split.
  { rewrite last_of_Undefined. split; intros H; [now rewrite H|].
    now apply map_eq_nil in H. }
  symmetry. apply tasksOf_length.
Qed.

Lemma tasksCursor_page_shape_witness :
  exists page,
    Query.tasksCursor
      {| first := Given 2; after := Undefined; userId := Undefined |}
      {| user := Some alice |} sample_db = (Ok page, sample_db) /\
    Z.of_nat (List.length (edges page)) <= 2.
Proof.
  destruct (tasksCursor_page_shape sample_db alice
              {| first := Given 2; after := Undefined; userId := Undefined |})
    as [page [Hrun [Hlen _]]].
  - vm_compute. discriminate.
  - exists page. split; [exact Hrun|exact Hlen].
Defined.

(** X17.  A negative page size gives, for any cursor, a page without
    edges and without cursors that nevertheless reports a next page. *)
Theorem tasksCursor_negative_first :
  forall (db : Db) (me : User.t) (args : TasksCursorArgs),
    page_size args < 0 ->
    Query.tasksCursor args {| user := Some me |} db =
    (Ok {| edges := [];
           pageInfo := {| hasNextPage := true;
                          hasPreviousPage := truthy (after args);
                          startCursor := Undefined;
                          endCursor := Undefined |};
           totalCount :=
             Z.of_nat (List.length
                         (tasksOf db (or_else (userId args) (User.id me)))) |},
     db).
Proof.
  intros db me args Hn.
  rewrite tasksCursor_run.
  pose proof (fetched_length_bound args me db) as Hb.
  assert (Hs : slice0 (fetched args me db) (page_size args) = []).
  { unfold slice0. destruct (Z.ltb_spec (page_size args) 0) as [_|H]; [|lia].
    rewrite Z.max_r by lia. reflexivity. }
  rewrite Hs. cbn [map first_of last_of].
  assert (Hnext : (Z.of_nat (List.length (fetched args me db))
                   >? page_size args) = true) by (apply Z.gtb_gt; lia).
  rewrite Hnext, tasksOf_length. reflexivity.
Qed.

Lemma tasksCursor_negative_first_witness :
  Query.tasksCursor
    {| first := Given (-3); after := Given "t1"; userId := Undefined |}
    {| user := Some alice |} sample_db =
  (Ok {| edges := [];
         pageInfo := {| hasNextPage := true;
                        hasPreviousPage := true;
                        startCursor := Undefined;
                        endCursor := Undefined |};
         totalCount := 3 |},
   sample_db).
Proof.
  apply (tasksCursor_negative_first sample_db alice
           {| first := Given (-3); after := Given "t1"; userId := Undefined |}).
  vm_compute. reflexivity.
Defined.

(** X18.  Following [endCursor] loses and repeats nothing: with unique,
    non-empty primary keys and a page size [k >= 1], a page taken where
    [rest] are the rows still to come shows the first [k] rows of
    [rest], reports a next page exactly when [rest] has more than [k]
    rows, and then its [endCursor] leaves exactly the rows of [rest]
    after the page still to come. *)
Theorem tasksCursor_endCursor_continues :
  forall (db : Db) (me : User.t) (k : Z) (c owner : arg string)
         (rest : list Task.t),
    ids_ok db ->
    1 <= k ->
    rows_after c (tasksOf db (or_else owner (User.id me))) = Some rest ->
    exists page,
      Query.tasksCursor {| first := Given k; after := c; userId := owner |}
        {| user := Some me |} db = (Ok page, db) /\
      items page = firstn (Z.to_nat k) rest /\
      (hasNextPage (pageInfo page) = true <->
       k < Z.of_nat (List.length rest)) /\
      (hasNextPage (pageInfo page) = true ->
       rows_after (endCursor (pageInfo page))
                  (tasksOf db (or_else owner (User.id me)))
         = Some (skipn (Z.to_nat k) rest)).
Proof.
  intros db me k c owner rest Hok Hk Hrest.
  set (C := tasksOf db (or_else owner (User.id me))) in *.
  assert (Hk0 : 0 <= k) by lia.
  eexists. split; [apply tasksCursor_run|].
  assert (Hf : fetched {| first := Given k; after := c; userId := owner |} me db
               = firstn (Z.to_nat (k + 1)) rest).
  { apply fetched_rows_after; [exact Hk0|exact Hrest]. }
  assert (Hitems : slice0 (fetched {| first := Given k; after := c;
                                      userId := owner |} me db) k
                   = firstn (Z.to_nat k) rest).
  { rewrite Hf, slice0_nonneg by exact Hk0.
    replace (Z.to_nat (k + 1)) with (S (Z.to_nat k)) by lia.
    apply firstn_succ_firstn. }
  assert (Hnext : (Z.of_nat (List.length
                     (fetched {| first := Given k; after := c;
                                 userId := owner |} me db)) >? k) = true
                  <-> k < Z.of_nat (List.length rest)).
  { rewrite Hf, length_firstn, Z.gtb_gt. lia. }
  cbn [page_size first default_param toNumber pageInfo hasNextPage endCursor].
  rewrite Hitems.
  split.
  { unfold items. cbn [edges]. rewrite map_map. cbn [edge_of node task_of].
    apply map_id. }
  split; [exact Hnext|].
  intros Hmore. apply Hnext in Hmore.
  (* where [rest] sits in the collection *)
  assert (Hsuffix : exists pre, C = pre ++ rest).
  { unfold rows_after in Hrest.
    assert (Hall : Some C = Some rest -> exists pre, C = pre ++ rest).
    { intros E. inversion E. now exists []. }
    destruct c as [| |a]; auto.
    destruct (truthy (Given a)); auto.
    destruct (position a C) as [i|]; [|discriminate].
    simpl in Hrest. inversion Hrest; subst.
    exists (firstn (S i) C). now rewrite firstn_skipn. }
  destruct Hsuffix as [pre HC].
  destruct (nil_or_snoc (firstn (Z.to_nat k) rest)) as [Hnil|[l' [x Hsnoc]]].
  { exfalso. assert (Hl : List.length (firstn (Z.to_nat k) rest) = O)
      by now rewrite Hnil.
    rewrite length_firstn in Hl. lia. }
  rewrite Hsnoc, last_of_snoc.
  assert (Hsplit : C = (pre ++ l') ++ x :: skipn (Z.to_nat k) rest).
  { rewrite HC. rewrite <- (firstn_skipn (Z.to_nat k) rest) at 1.
    rewrite Hsnoc, <- !app_assoc. reflexivity. }
  assert (Hnth : nth_error C (List.length (pre ++ l')) = Some x).
  { rewrite Hsplit. rewrite nth_error_app2 by lia.
    now rewrite Nat.sub_diag. }
  unfold C in Hnth |- *. rewrite (rows_after_stored _ _ _ _ Hok Hnth).
  fold C. f_equal.
  rewrite Hsplit at 1.
  change (S (List.length (pre ++ l')))
    with (1 + List.length (pre ++ l'))%nat.
  rewrite <- skipn_skipn. rewrite skipn_app, skipn_all, Nat.sub_diag.
  reflexivity.
Qed.

Lemma tasksCursor_endCursor_continues_witness :
  exists page,
    Query.tasksCursor
      {| first := Given 1; after := Given "t1"; userId := Undefined |}
      {| user := Some alice |} sample_db = (Ok page, sample_db) /\
    items page = [t2] /\
    rows_after (endCursor (pageInfo page)) (tasksOf sample_db "u1")
      = Some [t3].
Proof.
  destruct (tasksCursor_endCursor_continues sample_db alice 1 (Given "t1")
              Undefined [t2; t3])
    as [page [Hrun [Hitems [Hiff Hnext]]]].
  - exact ids_ok_sample.
  - lia.
  - reflexivity.
  - exists page. split; [exact Hrun|]. split; [exact Hitems|].
    apply Hnext. apply Hiff. simpl. lia.
Defined.

(* ===================================================================== *)
(** ** What the mutations do to the database *)
(* ===================================================================== *)

(** The only row with the id of a found row is that row. *)
Lemma found_is_the_row db id t x :
  NoDup (map Task.id (tasks db)) ->
  prisma.task.findUnique id db = Some t ->
  In x (tasks db) -> Task.id x = id -> x = t.
Proof.
  intros Hnd Hfind Hin Hid. subst id.
  rewrite (findUnique_In db x Hnd Hin) in Hfind. now inversion Hfind.
Qed.

Lemma keeps_keys_filter w f l :
  keeps_keys f l ->
  filter (prisma.task.matches w) (map f l)
  = map f (filter (prisma.task.matches w) l).
Proof.
  induction l as [|h r IH]; intros Hk; [reflexivity|].
  assert (Hr : keeps_keys f r) by (intros x Hx; apply Hk; now right).
  destruct (Hk h (or_introl eq_refl)) as [_ [Hu _]].
  cbn [map filter].
  assert (Hm : prisma.task.matches w (f h) = prisma.task.matches w h).
  { destruct w; simpl; [now rewrite Hu|reflexivity]. }
  rewrite Hm, (IH Hr). now destruct (prisma.task.matches w h).
Qed.

Lemma keeps_keys_insert f x l :
  keeps_keys f (x :: l) ->
  insert_by (createdAt_le desc) (f x) (map f l)
  = map f (insert_by (createdAt_le desc) x l).
Proof.
  induction l as [|h r IH]; intros Hk; [reflexivity|].
  destruct (Hk x (or_introl eq_refl)) as [_ [_ Hx]].
  destruct (Hk h (or_intror (or_introl eq_refl))) as [_ [_ Hh]].
  cbn [map insert_by createdAt_le]. rewrite Hx, Hh.
  destruct (Task.createdAt h <=? Task.createdAt x); [reflexivity|].
  cbn [map]. f_equal. apply IH.
  intros y [Hy|Hy]; apply Hk; [now left|right; now right].
Qed.

Lemma keeps_keys_sort f l :
  keeps_keys f l ->
  sort_by (createdAt_le desc) (map f l)
  = map f (sort_by (createdAt_le desc) l).
Proof.
  induction l as [|h r IH]; intros Hk; [reflexivity|].
  cbn [map sort_by]. rewrite IH by (intros x Hx; apply Hk; now right).
  apply keeps_keys_insert.
  intros y [Hy|Hy]; apply Hk; [now left|right].
  eapply Permutation_in; [apply sort_by_perm|exact Hy].
Qed.

Lemma keeps_keys_tasksOf f db owner :
  keeps_keys f (tasks db) ->
  tasksOf {| users := users db; tasks := map f (tasks db) |} owner
  = map f (tasksOf db owner).
Proof.
  intros Hk. unfold tasksOf. cbn [tasks].
  rewrite keeps_keys_filter by exact Hk.
  apply keeps_keys_sort.
  intros x Hx. apply Hk. apply filter_In in Hx. tauto.
Qed.

(** Writing a row that keeps the keys of the row found under [id]. *)
Lemma put_task_keeps_keys db id t t' :
  NoDup (map Task.id (tasks db)) ->
  prisma.task.findUnique id db = Some t ->
  Task.id t' = Task.id t ->
  Task.userId t' = Task.userId t ->
  Task.createdAt t' = Task.createdAt t ->
  keeps_keys (fun x => if (Task.id x =? id)%string then t' else x) (tasks db).
Proof.
  intros Hnd Hfind Hid Hu Hc x Hx.
  destruct (String.eqb_spec (Task.id x) id) as [E|_]; [|auto].
  rewrite (found_is_the_row db id t x Hnd Hfind Hx E). auto.
Qed.

Lemma put_task_fixes_others db id t t' other :
  NoDup (map Task.id (tasks db)) ->
  prisma.task.findUnique id db = Some t ->
  Task.userId t <> other ->
  map (fun x => if (Task.id x =? id)%string then t' else x)
      (filter (prisma.task.matches (Some other)) (tasks db))
  = filter (prisma.task.matches (Some other)) (tasks db).
Proof.
  intros Hnd Hfind Hne.
  rewrite <- (map_id (filter _ (tasks db))) at 2.
  apply map_ext_in. intros x Hx. apply filter_In in Hx.
  destruct Hx as [Hin Hm]. simpl in Hm. apply String.eqb_eq in Hm.
  destruct (String.eqb_spec (Task.id x) id) as [E|_]; [|reflexivity].
  rewrite (found_is_the_row db id t x Hnd Hfind Hin E) in Hm. contradiction.
Qed.

Lemma apply_data_keys env d t :
  Task.id (prisma.task.apply_data env d t) = Task.id t /\
  Task.userId (prisma.task.apply_data env d t) = Task.userId t /\
  Task.createdAt (prisma.task.apply_data env d t) = Task.createdAt t.
Proof.
  unfold prisma.task.apply_data.
  destruct (prisma.task.data_empty d); repeat split.
Qed.

Lemma mutation_effects env id uinput cinput P db :
  effect (uuid env) P db
    (final (Mutation.createTask env cinput {| user := Some P |} db)) /\
  effect (uuid env) P db
    (final (Mutation.updateTask env id uinput {| user := Some P |} db)) /\
  effect (uuid env) P db
    (final (Mutation.toggleTaskComplete env id {| user := Some P |} db)) /\
  effect (uuid env) P db
    (final (Mutation.deleteTask id {| user := Some P |} db)).
Proof.
  rewrite createTask_run, updateTask_run, toggleTaskComplete_run,
    deleteTask_run.
  split; [|split; [|split]].
  - destruct (title_ok _); [|constructor].
    destruct (prisma.task.findUnique (uuid env) db) eqn:E; [constructor|].
    cbn [final snd]. now constructor.
  - destruct (prisma.task.findUnique id db) as [t|] eqn:E; [|constructor].
    destruct (String.eqb_spec (Task.userId t) (User.id P)); [|constructor].
    destruct (prisma.task.data_refused uinput); [constructor|].
    cbn [final snd].
    destruct (apply_data_keys env uinput t) as [Hi [Hu Hc]].
    now apply eff_write with (t := t).
  - destruct (prisma.task.findUnique id db) as [t|] eqn:E; [|constructor].
    destruct (String.eqb_spec (Task.userId t) (User.id P)); [|constructor].
    cbn [final snd].
    destruct (apply_data_keys env (toggle_data t) t) as [Hi [Hu Hc]].
    now apply eff_write with (t := t).
  - destruct (prisma.task.findUnique id db) as [t|] eqn:E; [|constructor].
    destruct (String.eqb_spec (Task.userId t) (User.id P)); [|constructor].
    cbn [final snd]. now apply eff_delete with (t := t).
Qed.

Lemma filter_filter_implied {A} (p q : A -> bool) (l : list A) :
  (forall x, In x l -> p x = true -> q x = true) ->
  filter p (filter q l) = filter p l.
Proof.
  induction l as [|h r IH]; intros H; [reflexivity|].
  cbn [filter].
  assert (Hr : forall x, In x r -> p x = true -> q x = true)
    by (intros x Hx; apply H; now right).
  destruct (q h) eqn:Hq; cbn [filter].
  - rewrite (IH Hr). reflexivity.
  - destruct (p h) eqn:Hp; [|exact (IH Hr)].
    rewrite (H h (or_introl eq_refl) Hp) in Hq. discriminate.
Qed.

Lemma effect_ids_ok key P db db' :
  key <> "" -> ids_ok db -> effect key P db db' -> ids_ok db'.
Proof.
  intros Hkey [Hnd Hne] Heff.
  destruct Heff as [|t Hid Hown Hfresh|id t t' Hfind Hown Hid Hu Hc
                    |id t Hfind Hown].
  - now split.
  - split; cbn [tasks].
    + rewrite map_app. apply NoDup_app; [exact Hnd|repeat constructor; auto|].
      intros a Ha [Hb|[]]. subst a. apply findUnique_None in Hfresh.
      apply Hfresh. now rewrite <- Hid.
    + apply Forall_app. split; [exact Hne|]. repeat constructor. congruence.
  - apply findUnique_Some in Hfind as Hfound. destruct Hfound as [Hin Htid].
    assert (Hids : map Task.id (tasks (put_task id t' db))
                   = map Task.id (tasks db)).
    { cbn [put_task tasks]. rewrite map_map. apply map_ext.
      intros x. destruct (String.eqb_spec (Task.id x) id); congruence. }
    split; [now rewrite Hids|].
    cbn [put_task tasks]. rewrite Forall_forall in *.
    intros x Hx. apply in_map_iff in Hx. destruct Hx as [y [Hy Hyin]].
    destruct (Task.id y =? id)%string; subst x; [|auto].
    rewrite Hid. auto.
  - split; cbn [drop_task tasks].
    + clear -Hnd. induction (tasks db) as [|h r IH]; [constructor|].
      simpl in Hnd. inversion Hnd as [|? ? Hnotin Hnd']; subst.
      cbn [filter]. destruct (negb _); [|auto].
      cbn [map]. constructor; [|auto].
      intros Hin. apply Hnotin. apply in_map_iff in Hin.
      destruct Hin as [y [Hy Hin]]. apply filter_In in Hin.
      rewrite <- Hy. apply in_map. tauto.
    + rewrite Forall_forall in *. intros x Hx. apply filter_In in Hx.
      apply Hne. tauto.
Qed.

Lemma effect_others key P db db' other :
  NoDup (map Task.id (tasks db)) ->
  effect key P db db' ->
  other <> User.id P ->
  users db' = users db /\
  filter (prisma.task.matches (Some other)) (tasks db')
  = filter (prisma.task.matches (Some other)) (tasks db).
Proof.
  intros Hnd Heff Hother.
  destruct Heff as [|t Hid Hown Hfresh|id t t' Hfind Hown Hid Hu Hc
                    |id t Hfind Hown].
  - now split.
  - split; [reflexivity|]. cbn [tasks]. rewrite filter_app. cbn [filter].
    assert (Hm : prisma.task.matches (Some other) t = false).
    { simpl. apply String.eqb_neq. congruence. }
    rewrite Hm. apply app_nil_r.
  - split; [reflexivity|]. cbn [put_task tasks].
    rewrite keeps_keys_filter
      by (eapply put_task_keeps_keys; eauto).
    apply put_task_fixes_others with (t := t); auto. congruence.
  - split; [reflexivity|]. cbn [drop_task tasks].
    apply filter_filter_implied. intros x Hx Hm.
    simpl in Hm. apply String.eqb_eq in Hm.
    destruct (String.eqb_spec (Task.id x) id) as [E|_]; [|reflexivity].
    rewrite (found_is_the_row db id t x Hnd Hfind Hx E) in Hm. congruence.
Qed.

(** X19.  The four task mutations keep the primary keys of the task
    table unique and non-empty, whatever their arguments and outcome,
    as long as the key drawn for a new row is not empty. *)
Theorem mutations_keep_ids_ok :
  forall env id uinput cinput P db,
    uuid env <> "" ->
    ids_ok db ->
    ids_ok (final (Mutation.createTask env cinput {| user := Some P |} db)) /\
    ids_ok (final (Mutation.updateTask env id uinput {| user := Some P |} db)) /\
    ids_ok (final (Mutation.toggleTaskComplete env id {| user := Some P |} db)) /\
    ids_ok (final (Mutation.deleteTask id {| user := Some P |} db)).
Proof.
  intros env id uinput cinput P db Hkey Hok.
  destruct (mutation_effects env id uinput cinput P db)
    as [Hc [Hu [Ht Hd]]].
  repeat split; eapply effect_ids_ok; eauto.
Qed.

Lemma mutations_keep_ids_ok_witness :
  ids_ok (final (Mutation.createTask sample_env
                   {| input_title := "Plan trip"; input_description := None |}
                   {| user := Some bob |} sample_db)).
Proof.
  apply (mutations_keep_ids_ok sample_env "t1"
           {| upd_title := Undefined; upd_description := Undefined;
              upd_completed := Undefined |}
           {| input_title := "Plan trip"; input_description := None |}
           bob sample_db).
  - discriminate.
  - exact ids_ok_sample.
Defined.

(** X20.  No task mutation reaches another user's data: with unique
    primary keys, whatever [P] asks of [createTask], [updateTask],
    [toggleTaskComplete] or [deleteTask] and whatever the outcome, the
    listing of every other user is what it was, and so is the user
    table. *)
Theorem mutations_leave_other_users_alone :
  forall env id uinput cinput P db other,
    NoDup (map Task.id (tasks db)) ->
    other <> User.id P ->
    let same db' :=
      users db' = users db /\ tasksOf db' other = tasksOf db other in
    same (final (Mutation.createTask env cinput {| user := Some P |} db)) /\
    same (final (Mutation.updateTask env id uinput {| user := Some P |} db)) /\
    same (final (Mutation.toggleTaskComplete env id {| user := Some P |} db)) /\
    same (final (Mutation.deleteTask id {| user := Some P |} db)).
Proof.
  intros env id uinput cinput P db other Hnd Hother same.
  assert (H : forall db', effect (uuid env) P db db' -> same db').
  { intros db' Heff.
    destruct (effect_others _ _ _ _ other Hnd Heff Hother) as [Hu Hf].
    split; [exact Hu|]. unfold tasksOf. now rewrite Hf. }
  destruct (mutation_effects env id uinput cinput P db)
    as [Hc [Hu [Ht Hd]]].
  repeat split; apply H; assumption.
Qed.

Lemma mutations_leave_other_users_alone_witness :
  tasksOf (final (Mutation.deleteTask "t4" {| user := Some bob |} sample_db))
          "u1"
  = tasksOf sample_db "u1".
Proof.
  apply (mutations_leave_other_users_alone sample_env "t4"
           {| upd_title := Undefined; upd_description := Undefined;
              upd_completed := Undefined |}
           {| input_title := "x"; input_description := None |}
           bob sample_db "u1").
  - simpl. repeat constructor; simpl; intuition discriminate.
  - discriminate.
Defined.

Lemma findUnique_put db id t t' :
  prisma.task.findUnique id db = Some t ->
  Task.id t' = id ->
  prisma.task.findUnique id (put_task id t' db) = Some t'.
Proof.
  unfold prisma.task.findUnique, put_task. cbn [tasks].
  intros Hfind Hid.
  induction (tasks db) as [|h r IH]; [discriminate|].
  cbn [map find] in *.
  destruct (String.eqb_spec (Task.id h) id) as [E|NE].
  - rewrite Hid, String.eqb_refl. reflexivity.
  - destruct (String.eqb_spec (Task.id h) id); [contradiction|auto].
Qed.

Lemma findUnique_put_other db id id' t' :
  Task.id t' = id -> id' <> id ->
  prisma.task.findUnique id' (put_task id t' db)
  = prisma.task.findUnique id' db.
Proof.
  unfold prisma.task.findUnique, put_task. cbn [tasks].
  intros Hid Hne.
  induction (tasks db) as [|h r IH]; [reflexivity|].
  cbn [map find].
  destruct (String.eqb_spec (Task.id h) id) as [E|NE].
  - rewrite Hid, E.
    destruct (String.eqb_spec id id') as [E'|_]; [congruence|exact IH].
  - rewrite IH. reflexivity.
Qed.

Lemma findUnique_drop_other db id id' :
  id' <> id ->
  prisma.task.findUnique id' (drop_task id db)
  = prisma.task.findUnique id' db.
Proof.
  unfold prisma.task.findUnique, drop_task. cbn [tasks].
  intros Hne.
  induction (tasks db) as [|h r IH]; [reflexivity|].
  cbn [filter find].
  destruct (String.eqb_spec (Task.id h) id) as [E|NE]; cbn [negb find].
  - rewrite E. destruct (String.eqb_spec id id'); [congruence|exact IH].
  - now rewrite IH.
Qed.

Lemma findUnique_app_new db t :
  prisma.task.findUnique (Task.id t) db = None ->
  prisma.task.findUnique (Task.id t)
    {| users := users db; tasks := tasks db ++ [t] |} = Some t.
Proof.
  unfold prisma.task.findUnique. cbn [tasks]. intros H.
  apply find_app_new; [exact H|apply String.eqb_refl].
Qed.

Lemma findUnique_app_old db t id r :
  prisma.task.findUnique id db = Some r ->
  prisma.task.findUnique id {| users := users db; tasks := tasks db ++ [t] |}
  = Some r.
Proof.
  unfold prisma.task.findUnique. cbn [tasks]. apply find_app_old.
Qed.

(** X21.  Updating or toggling a task moves nothing: with unique
    primary keys, after [updateTask] or [toggleTaskComplete], whatever
    the outcome, every user's listing has the same task ids in the same
    order as before, so cursors handed out earlier still name the same
    positions. *)
Theorem updates_keep_listing_order :
  forall env id uinput P db owner,
    NoDup (map Task.id (tasks db)) ->
    map Task.id
      (tasksOf (final (Mutation.updateTask env id uinput
                         {| user := Some P |} db)) owner)
      = map Task.id (tasksOf db owner) /\
    map Task.id
      (tasksOf (final (Mutation.toggleTaskComplete env id
                         {| user := Some P |} db)) owner)
      = map Task.id (tasksOf db owner).
Proof.
  intros env id uinput P db owner Hnd.
  assert (H : forall t t',
             prisma.task.findUnique id db = Some t ->
             Task.id t' = Task.id t ->
             Task.userId t' = Task.userId t ->
             Task.createdAt t' = Task.createdAt t ->
             map Task.id (tasksOf (put_task id t' db) owner)
             = map Task.id (tasksOf db owner)).
  { intros t t' Hfind Hid Hu Hc.
    pose proof (put_task_keeps_keys db id t t' Hnd Hfind Hid Hu Hc) as Hk.
    unfold put_task. rewrite keeps_keys_tasksOf by exact Hk.
    rewrite map_map. apply map_ext_in. intros x Hx.
    apply tasksOf_In in Hx. apply Hk. tauto. }
  rewrite updateTask_run, toggleTaskComplete_run.
  destruct (prisma.task.findUnique id db) as [t|] eqn:E; [|now split].
  destruct (Task.userId t =? User.id P)%string; [|now split].
  split.
  - destruct (prisma.task.data_refused uinput); cbn [final snd];
      [reflexivity|].
    apply (H t _ eq_refl); apply apply_data_keys.
  - cbn [final snd]. apply (H t _ eq_refl); apply apply_data_keys.
Qed.

Lemma updates_keep_listing_order_witness :
  map Task.id
    (tasksOf (final (Mutation.toggleTaskComplete sample_env "t2"
                       {| user := Some alice |} sample_db)) "u1")
  = ["t1"; "t2"; "t3"].
Proof.
  apply (updates_keep_listing_order sample_env "t2"
           {| upd_title := Undefined; upd_description := Undefined;
              upd_completed := Undefined |} alice sample_db "u1").
  simpl. repeat constructor; simpl; intuition discriminate.
Defined.

(** X22.  Toggling a task twice restores its completion flag: after two
    [toggleTaskComplete] calls by its owner the stored row is the
    original one but for [updatedAt], which is the time of the second
    call, and the second call returns that row. *)
Theorem toggle_twice_restores :
  forall env1 env2 id P db t,
    prisma.task.findUnique id db = Some t ->
    Task.userId t = User.id P ->
    exists db1 db2,
      final (Mutation.toggleTaskComplete env1 id {| user := Some P |} db)
        = db1 /\
      Mutation.toggleTaskComplete env2 id {| user := Some P |} db1
        = (Ok (prisma.task.with_user db (touched env2 t)), db2) /\
      prisma.task.findUnique id db2 = Some (touched env2 t).
Proof.
  intros env1 env2 id P db t Hfind Hown.
  apply findUnique_Some in Hfind as Hfound. destruct Hfound as [_ Hid].
  assert (Heq : (Task.userId t =? User.id P)%string = true)
    by (rewrite Hown; apply String.eqb_refl).
  eexists. eexists. split; [reflexivity|].
  rewrite (toggleTaskComplete_run env1), Hfind, Heq.
  cbn [final snd].
  set (t1 := prisma.task.apply_data env1 (toggle_data t) t).
  assert (Hid1 : Task.id t1 = id) by exact Hid.
  assert (Heq1 : (Task.userId t1 =? User.id P)%string = true) by exact Heq.
  assert (Hrow : prisma.task.apply_data env2 (toggle_data t1) t1
                 = touched env2 t).
  { unfold t1, touched, prisma.task.apply_data, toggle_data. simpl.
    now rewrite negb_involutive. }
  rewrite toggleTaskComplete_run.
  rewrite (findUnique_put db id t t1 Hfind Hid1), Heq1, Hrow.
  split; [reflexivity|].
  apply findUnique_put with (t := t1).
  - now apply findUnique_put with (t := t).
  - exact Hid.
Qed.

Lemma toggle_twice_restores_witness :
  exists db1 db2,
    final (Mutation.toggleTaskComplete sample_env "t3"
             {| user := Some alice |} sample_db) = db1 /\
    Mutation.toggleTaskComplete {| now := 450; uuid := "" |} "t3"
      {| user := Some alice |} db1
      = (Ok (prisma.task.with_user sample_db
               (touched {| now := 450; uuid := "" |} t3)), db2) /\
    prisma.task.findUnique "t3" db2
      = Some (touched {| now := 450; uuid := "" |} t3).
Proof.
  apply (toggle_twice_restores sample_env {| now := 450; uuid := "" |} "t3"
           alice sample_db t3); reflexivity.
Defined.

Lemma sort_desc_newest_last x l :
  Forall (fun t => Task.createdAt t < Task.createdAt x) l ->
  sort_by (createdAt_le desc) (l ++ [x]) = x :: sort_by (createdAt_le desc) l.
Proof.
  induction l as [|h r IH]; intros H; [reflexivity|].
  inversion H as [|? ? Hh Hr]; subst.
  cbn [app sort_by]. rewrite (IH Hr). cbn [insert_by createdAt_le].
  destruct (Z.leb_spec (Task.createdAt x) (Task.createdAt h)) as [Hle|_];
    [lia|reflexivity].
Qed.

(** X23.  A created task can be read back and nothing else is lost:
    after a [createTask] that passes validation with a fresh primary
    key, the [task] query finds exactly the returned row under the new
    id, every id that named a row before still names the same row, and
    the owner's task count has grown by one. *)
Theorem createTask_then_task :
  forall env input P db context,
    title_ok (input_title input) = true ->
    prisma.task.findUnique (uuid env) db = None ->
    exists row db',
      Mutation.createTask env input {| user := Some P |} db = (Ok row, db') /\
      task_of row = created env input P /\
      Query.task (uuid env) context db' = (Ok row, db') /\
      (forall id r, prisma.task.findUnique id db = Some r ->
                    prisma.task.findUnique id db' = Some r) /\
      prisma.task.count (Some (User.id P)) db'
        = prisma.task.count (Some (User.id P)) db + 1.
Proof.
  intros env input P db context Hok Hfresh.
  eexists. eexists.
  rewrite createTask_run, Hok, Hfresh.
  split; [reflexivity|]. split; [reflexivity|].
  split; [|split].
  - unfold Query.task, include_user, bind, query, throw.
    replace (prisma.task.findUnique (uuid env) _)
      with (Some (created env input P))
      by (symmetry; apply (findUnique_app_new db (created env input P) Hfresh)).
    reflexivity.
  - intros id r Hr. now apply findUnique_app_old.
  - unfold prisma.task.count. cbn [tasks]. rewrite filter_app, length_app.
    cbn [filter prisma.task.matches created Task.userId].
    rewrite String.eqb_refl. cbn [List.length]. lia.
Qed.

Lemma createTask_then_task_witness :
  exists row db',
    Mutation.createTask sample_env
      {| input_title := "Plan trip"; input_description := None |}
      {| user := Some bob |} sample_db = (Ok row, db') /\
    Query.task "t5" {| user := None |} db' = (Ok row, db').
Proof.
  destruct (createTask_then_task sample_env
              {| input_title := "Plan trip"; input_description := None |}
              bob sample_db {| user := None |})
    as [row [db' [Hrun [_ [Hread _]]]]].
  - reflexivity.
  - reflexivity.
  - exists row, db'. split; [exact Hrun|exact Hread].
Defined.

(** X24.  A task created when the clock is ahead of every stored
    creation time heads its owner's listing: the listing afterwards is
    the new row followed by the listing before. *)
Theorem created_task_heads_listing :
  forall env input P db,
    title_ok (input_title input) = true ->
    prisma.task.findUnique (uuid env) db = None ->
    Forall (fun t => Task.createdAt t < now env) (tasks db) ->
    tasksOf (final (Mutation.createTask env input {| user := Some P |} db))
            (User.id P)
    = created env input P :: tasksOf db (User.id P).
Proof.
  intros env input P db Hok Hfresh Hclock.
  rewrite createTask_run, Hok, Hfresh. cbn [final snd].
  unfold tasksOf. cbn [tasks]. rewrite filter_app.
  cbn [filter prisma.task.matches created Task.userId].
  rewrite String.eqb_refl.
  apply (sort_desc_newest_last
           {| Task.id := uuid env;
              Task.title := input_title input;
              Task.description := input_description input;
              Task.completed := false;
              Task.createdAt := now env;
              Task.updatedAt := now env;
              Task.userId := User.id P |}).
  cbn [Task.createdAt].
  rewrite Forall_forall in *. intros t Ht. apply Hclock.
  apply filter_In in Ht. tauto.
Qed.

Lemma created_task_heads_listing_witness :
  tasksOf (final (Mutation.createTask sample_env
                    {| input_title := "Plan trip"; input_description := None |}
                    {| user := Some alice |} sample_db)) "u1"
  = [Task.mk "t5" "Plan trip" None false 400 400 "u1"; t1; t2; t3].
Proof.
  apply (created_task_heads_listing sample_env
           {| input_title := "Plan trip"; input_description := None |}
           alice sample_db).
  - reflexivity.
  - reflexivity.
  - repeat constructor.
Defined.

(** X25.  An update can be read back: after [updateTask] by the owner
    with data the storage call accepts (no [null] title or completion
    flag), the [task] query returns exactly the row [updateTask]
    returned.  That row has the id, owner and creation time of the old
    one, the value the input gives in every column it sets and the old
    value in every other; its [updatedAt] is the time of the call, or
    the old one when the input sets no column.  Rows under other ids
    are what they were. *)
Theorem updateTask_then_task :
  forall env id input P db t context,
    prisma.task.findUnique id db = Some t ->
    Task.userId t = User.id P ->
    upd_title input <> Null ->
    upd_completed input <> Null ->
    exists row db',
      Mutation.updateTask env id input {| user := Some P |} db
        = (Ok row, db') /\
      Query.task id context db' = (Ok row, db') /\
      user_of row = prisma.user.findUnique (Task.userId t) db /\
      Task.id (task_of row) = id /\
      Task.userId (task_of row) = Task.userId t /\
      Task.createdAt (task_of row) = Task.createdAt t /\
      Task.title (task_of row) = match upd_title input with
                                 | Given s => s
                                 | _ => Task.title t
                                 end /\
      Task.description (task_of row) = match upd_description input with
                                       | Given s => Some s
                                       | Null => None
                                       | Undefined => Task.description t
                                       end /\
      Task.completed (task_of row) = match upd_completed input with
                                     | Given b => b
                                     | _ => Task.completed t
                                     end /\
      Task.updatedAt (task_of row) =
        match upd_title input, upd_description input,
              upd_completed input with
        | Undefined, Undefined, Undefined => Task.updatedAt t
        | _, _, _ => now env
        end /\
      (forall id', id' <> id ->
         prisma.task.findUnique id' db' = prisma.task.findUnique id' db).
Proof.
  intros env id input P db t context Hfind Hown Ht Hc.
  apply findUnique_Some in Hfind as Hfound. destruct Hfound as [_ Hid].
  assert (Heq : (Task.userId t =? User.id P)%string = true)
    by (rewrite Hown; apply String.eqb_refl).
  destruct (apply_data_fields env input t)
    as [Hi [Hu [Hcr [Hti [Hde [Hco Hup]]]]]].
  eexists. eexists.
  rewrite updateTask_run, Hfind, Heq, (data_refused_false input Ht Hc).
  split; [reflexivity|].
  split.
  { unfold Query.task, include_user, bind, query, throw.
    rewrite (findUnique_put db id t _ Hfind) by (rewrite Hi; exact Hid).
    reflexivity. }
  cbn [task_of user_of prisma.task.with_user].
  split; [now rewrite Hu|].
  split; [now rewrite Hi|].
  repeat (split; [assumption|]).
  intros id' Hne. apply findUnique_put_other; [|exact Hne].
  now rewrite Hi.
Qed.

Lemma updateTask_then_task_witness :
  exists row db',
    Mutation.updateTask sample_env "t2"
      {| upd_title := Given "Buy oat milk"; upd_description := Undefined;
         upd_completed := Undefined |}
      {| user := Some alice |} sample_db = (Ok row, db') /\
    Query.task "t2" {| user := None |} db' = (Ok row, db') /\
    Task.title (task_of row) = "Buy oat milk" /\
    Task.updatedAt (task_of row) = 400.
Proof.
  destruct (updateTask_then_task sample_env "t2"
              {| upd_title := Given "Buy oat milk"; upd_description := Undefined;
                 upd_completed := Undefined |}
              alice sample_db t2 {| user := None |})
    as [row [db' [Hrun [Hread [_ [_ [_ [_ [Htitle [_ [_ [Hupd _]]]]]]]]]]]].
  - reflexivity.
  - reflexivity.
  - discriminate.
  - discriminate.
  - exists row, db'. split; [exact Hrun|]. split; [exact Hread|].
    split; [exact Htitle|exact Hupd].
Defined.

Lemma filter_all {A} (p : A -> bool) (l : list A) :
  (forall x, In x l -> p x = true) -> filter p l = l.
Proof.
  induction l as [|h r IH]; intros H; [reflexivity|].
  cbn [filter]. rewrite (H h (or_introl eq_refl)).
  f_equal. apply IH. intros x Hx. apply H. now right.
Qed.

Lemma drop_exactly_one l t :
  NoDup (map Task.id l) -> In t l ->
  Permutation l
    (t :: filter (fun x => negb (Task.id x =? Task.id t)%string) l).
Proof.
  induction l as [|h r IH]; intros Hnd Hin; [contradiction|].
  simpl in Hnd. inversion Hnd as [|? ? Hnotin Hnd']; subst.
  cbn [filter].
  destruct Hin as [E|Hin].
  - subst h. rewrite String.eqb_refl. cbn [negb]. constructor.
    rewrite filter_all; [reflexivity|].
    intros x Hx. destruct (String.eqb_spec (Task.id x) (Task.id t)) as [E|_];
      [|reflexivity].
    exfalso. apply Hnotin. rewrite <- E. now apply in_map.
  - destruct (String.eqb_spec (Task.id h) (Task.id t)) as [E|NE].
    + exfalso. apply Hnotin. rewrite E. now apply in_map.
    + cbn [negb]. rewrite (IH Hnd' Hin) at 1. apply perm_swap.
Qed.

(** X26.  A delete removes one row and no more: with unique primary
    keys, after [deleteTask] by the owner the returned row is the stored
    one, the table is the old table without that row, the [task] query
    no longer finds the id, and every other id names what it named
    before. *)
Theorem deleteTask_removes_one_row :
  forall id P db t context,
    NoDup (map Task.id (tasks db)) ->
    prisma.task.findUnique id db = Some t ->
    Task.userId t = User.id P ->
    exists db',
      Mutation.deleteTask id {| user := Some P |} db
        = (Ok (prisma.task.with_user db t), db') /\
      Permutation (tasks db) (t :: tasks db') /\
      users db' = users db /\
      Query.task id context db'
        = (Throw (NotFoundError "Task not found"), db') /\
      (forall id', id' <> id ->
         prisma.task.findUnique id' db' = prisma.task.findUnique id' db).
Proof.
  intros id P db t context Hnd Hfind Hown.
  apply findUnique_Some in Hfind as Hfound. destruct Hfound as [Hin Hid].
  eexists.
  rewrite deleteTask_run, Hfind, Hown, String.eqb_refl.
  split; [reflexivity|].
  split.
  { cbn [drop_task tasks]. rewrite <- Hid. now apply drop_exactly_one. }
  split; [reflexivity|].
  split.
  { unfold Query.task, include_user, bind, query, throw.
    unfold drop_task. now rewrite findUnique_after_delete. }
  intros id' Hne. now apply findUnique_drop_other.
Qed.

Lemma deleteTask_removes_one_row_witness :
  exists db',
    Mutation.deleteTask "t1" {| user := Some alice |} sample_db
      = (Ok (prisma.task.with_user sample_db t1), db') /\
    Permutation (tasks sample_db) (t1 :: tasks db').
Proof.
  destruct (deleteTask_removes_one_row "t1" alice sample_db t1
              {| user := None |})
    as [db' [Hrun [Hperm _]]].
  - simpl. repeat constructor; simpl; intuition discriminate.
  - reflexivity.
  - reflexivity.
  - exists db'. split; [exact Hrun|exact Hperm].
Defined.

(* ===================================================================== *)
(** ** Titles and names that are too short *)
(* ===================================================================== *)

Lemma trimStart_spaces s : all_chars is_space s = true -> trimStart s = "".
Proof.
  induction s as [|c r IH]; simpl; intros H; [reflexivity|].
  apply andb_prop in H. destruct H as [Hc Hr]. rewrite Hc. auto.
Qed.

Lemma trimStart_length s : (String.length (trimStart s) <= String.length s)%nat.
Proof.
  induction s as [|c r IH]; simpl; [lia|].
  destruct (is_space c); simpl; lia.
Qed.

Lemma trimEnd_length s : (String.length (trimEnd s) <= String.length s)%nat.
Proof.
  induction s as [|c r IH]; simpl; [lia|].
  destruct (trimEnd r) as [|d r'] eqn:E.
  - destruct (is_space c); simpl; lia.
  - simpl in *. lia.
Qed.

Lemma trim_length s : (String.length (trim s) <= String.length s)%nat.
Proof.
  unfold trim. pose proof (trimEnd_length (trimStart s)).
  pose proof (trimStart_length s). lia.
Qed.

Lemma trim_spaces s : all_chars is_space s = true -> trim s = "".
Proof. intros H. unfold trim. now rewrite trimStart_spaces. Qed.

(** X27.  White space does not count towards the minimum lengths:
    [createTask] rejects every title that consists of white space only,
    or has fewer than three characters, and [register] rejects every
    name that consists of white space only, or has fewer than two
    characters; both store nothing. *)
Theorem blank_titles_and_names_rejected :
  forall (hashPassword : string -> string -> string)
         (generateToken : Z -> string -> string)
         env salt P db,
    (forall input,
        all_chars is_space (input_title input) = true \/
        (String.length (input_title input) < 3)%nat ->
        Mutation.createTask env input {| user := Some P |} db =
        (Throw (ValidationError "Title must be at least 3 characters"), db)) /\
    (forall input,
        all_chars is_space (reg_name input) = true \/
        (String.length (reg_name input) < 2)%nat ->
        register hashPassword generateToken env salt input db =
        (Throw (ValidationError "Name must be at least 2 characters"), db)).
Proof.
  intros hashPassword generateToken env salt P db. split.
  - intros input H. rewrite createTask_run.
    assert (Hbad : title_ok (input_title input) = false).
    { unfold title_ok. apply negb_false_iff, orb_true_iff. right.
      apply Z.ltb_lt. destruct H as [H|H].
      - now rewrite trim_spaces.
      - pose proof (trim_length (input_title input)). lia. }
    now rewrite Hbad.
  - intros input H. unfold register, throw.
    assert (Hbad : (reg_name input =? "")%string
                   || (Z.of_nat (String.length (trim (reg_name input))) <? 2)
                   = true).
    { apply orb_true_iff. right. apply Z.ltb_lt. destruct H as [H|H].
      - now rewrite trim_spaces.
      - pose proof (trim_length (reg_name input)). lia. }
    now rewrite Hbad.
Qed.

Lemma blank_titles_and_names_rejected_witness :
  Mutation.createTask sample_env
    {| input_title := "      "; input_description := None |}
    {| user := Some alice |} sample_db =
  (Throw (ValidationError "Title must be at least 3 characters"), sample_db).
Proof.
  apply (blank_titles_and_names_rejected sample_hash sample_token sample_env
           "salt" alice sample_db).
  left. reflexivity.
Defined.

(* ===================================================================== *)
(** ** The order of a page *)
(* ===================================================================== *)

Lemma sorted_firstn (R : Task.t -> Task.t -> Prop) n l :
  StronglySorted R l -> StronglySorted R (firstn n l).
Proof.
  intros H. revert n. induction H as [|a l Hs IH Ha]; intros n.
  - rewrite firstn_nil. constructor.
  - destruct n as [|n]; [constructor|].
    cbn [firstn]. constructor; [apply IH|].
    rewrite Forall_forall in *. intros x Hx. apply Ha.
    now apply firstn_incl in Hx.
Qed.

Lemma sorted_skipn (R : Task.t -> Task.t -> Prop) n l :
  StronglySorted R l -> StronglySorted R (skipn n l).
Proof.
  revert l. induction n as [|n IH]; intros l H; [exact H|].
  destruct l as [|a l]; [constructor|].
  cbn [skipn]. apply IH. now inversion H.
Qed.

Lemma from_cursor_suffix c l : exists i, from_cursor c l = skipn i l.
Proof.
  induction l as [|t r [i Hi]]; [now exists O|].
  cbn [from_cursor]. destruct (Task.id t =? c)%string.
  - now exists O.
  - exists (S i). exact Hi.
Qed.

(** The rows of a page are a run of the listing. *)
Lemma page_rows_sorted (R : Task.t -> Task.t -> Prop) args me db :
  StronglySorted R (tasksOf db (or_else (userId args) (User.id me))) ->
  StronglySorted R (slice0 (fetched args me db) (page_size args)).
Proof.
  intros Hs.
  destruct (Z.ltb_spec (page_size args) 0) as [Hneg|Hn].
  - pose proof (fetched_length_bound args me db) as Hb.
    unfold slice0. destruct (Z.ltb_spec (page_size args) 0) as [_|H]; [|lia].
    rewrite Z.max_r by lia. constructor.
  - rewrite slice0_nonneg by exact Hn. apply sorted_firstn.
    rewrite fetched_forward by exact Hn. apply sorted_firstn.
    destruct (after args) as [| |a]; auto.
    destruct (truthy (Given a)); auto.
    destruct (from_cursor_suffix a
                (tasksOf db (or_else (userId args) (User.id me)))) as [i Hi].
    rewrite Hi. now apply sorted_skipn, sorted_skipn.
Qed.

Lemma items_of_run db l pi n :
  items {| edges := map (edge_of db) l; pageInfo := pi; totalCount := n |} = l.
Proof.
  unfold items. cbn [edges]. rewrite map_map. cbn [edge_of node task_of].
  apply map_id.
Qed.

(** C8, as the claim has it, fails: a page lists rows that share a
    creation timestamp in neither ascending nor descending id order. *)
Lemma tasksCursor_ties_not_ordered_by_id :
  ids_ok tied_db /\
  exists page,
    Query.tasksCursor
      {| first := Given 10; after := Undefined; userId := Undefined |}
      {| user := Some alice |} tied_db = (Ok page, tied_db) /\
    map Task.id (items page) = ["b"; "a"; "c"] /\
    ~ exists dir, StronglySorted (tie_broken_by_id dir) (items page).
Proof.
  split.
  - split.
    + simpl. repeat constructor; simpl; intuition discriminate.
    + repeat constructor; discriminate.
  - eexists. split; [apply tasksCursor_run|].
    rewrite items_of_run.
    assert (Hrows : slice0
                      (fetched {| first := Given 10; after := Undefined;
                                  userId := Undefined |} alice tied_db)
                      (page_size {| first := Given 10; after := Undefined;
                                    userId := Undefined |})
                    = tasks tied_db) by reflexivity.
    rewrite Hrows. split; [reflexivity|].
    intros [dir H]. simpl in H.
    inversion H as [|? ? Hrest Hb]; subst.
    inversion Hrest as [|? ? _ Ha]; subst.
    inversion Hb as [|? ? Hba _]; subst.
    inversion Ha as [|? ? Hac _]; subst.
    destruct dir.
    + destruct Hba as [Hlt|[_ Hlt]]; simpl in Hlt; [lia|discriminate].
    + destruct Hac as [Hlt|[_ Hlt]]; simpl in Hlt; [lia|discriminate].
Qed.

(** C8, amended.  The paginator orders by creation timestamp, newest
    first, and by nothing else: every page [tasksCursor] returns lists
    its rows newest first; a page without a cursor whose size reaches
    the owner's task count lists all of the owner's stored rows; and the
    order is strict when the owner's rows have pairwise distinct
    creation timestamps. *)
Theorem tasksCursor_order :
  forall (db : Db) (me : User.t) (args : TasksCursorArgs),
    exists page,
      Query.tasksCursor args {| user := Some me |} db = (Ok page, db) /\
      StronglySorted newer_or_level (items page) /\
      (truthy (after args) = false ->
       prisma.task.count (Some (or_else (userId args) (User.id me))) db
         <= page_size args ->
       Permutation (items page)
         (filter (prisma.task.matches
                    (Some (or_else (userId args) (User.id me)))) (tasks db))) /\
      (NoDup (map Task.createdAt
                (filter (prisma.task.matches
                           (Some (or_else (userId args) (User.id me))))
                        (tasks db))) ->
       StronglySorted newer (items page)).
Proof.
  intros db me args.
  set (target := or_else (userId args) (User.id me)).
  eexists. split; [apply tasksCursor_run|].
  rewrite items_of_run. fold target.
  split; [|split].
  - apply page_rows_sorted. apply sort_desc_sorted.
  - intros Habs Hcount. rewrite <- tasksOf_length in Hcount.
    assert (Hn : 0 <= page_size args)
      by (eapply Z.le_trans; [apply Nat2Z.is_nonneg|exact Hcount]).
    rewrite slice0_nonneg, fetched_forward by exact Hn. fold target.
    assert (Hstart : match after args with
                     | Given a =>
                         if truthy (after args)
                         then skipn 1 (from_cursor a (tasksOf db target))
                         else tasksOf db target
                     | _ => tasksOf db target
                     end = tasksOf db target).
    { destruct (after args); auto. now rewrite Habs. }
    rewrite Hstart.
    rewrite (firstn_all2 (n := Z.to_nat (page_size args + 1))) by lia.
    rewrite firstn_all2 by lia.
    apply sort_by_perm.
  - intros Hts. apply page_rows_sorted.
    apply sorted_distinct_strict; [apply sort_desc_sorted|].
    eapply Permutation_NoDup; [|exact Hts].
    apply Permutation_map. symmetry. apply sort_by_perm.
Qed.

Lemma tasksCursor_order_witness :
  exists page,
    Query.tasksCursor
      {| first := Given 5; after := Undefined; userId := Undefined |}
      {| user := Some alice |} sample_db = (Ok page, sample_db) /\
    Permutation (items page) [t3; t1; t2] /\
    StronglySorted newer (items page).
Proof.
  destruct (tasksCursor_order sample_db alice
              {| first := Given 5; after := Undefined; userId := Undefined |})
    as [page [Hrun [_ [Hall Hstrict]]]].
  exists page. split; [exact Hrun|]. split.
  - apply Hall; [reflexivity|vm_compute; discriminate].
  - apply Hstrict. simpl. repeat constructor; simpl; intuition discriminate.
Defined.

(* ===================================================================== *)
(** ** Whose tasks a page shows *)
(* ===================================================================== *)

(** What [tasksCursor] returns when it pages through [target]'s
    tasks. *)
Lemma tasksCursor_over_target db me args :
  exists page,
    Query.tasksCursor args {| user := Some me |} db = (Ok page, db) /\
    totalCount page =
      Z.of_nat (List.length
        (filter (fun t => (Task.userId t =?
                           or_else (userId args) (User.id me))%string)
                (tasks db))) /\
    Forall (fun t => In t (tasks db) /\
                     Task.userId t = or_else (userId args) (User.id me))
           (items page) /\
    (forall rest,
        0 <= page_size args ->
        rows_after (after args)
                   (tasksOf db (or_else (userId args) (User.id me)))
          = Some rest ->
        items page = firstn (Z.to_nat (page_size args)) rest) /\
    (truthy (after args) = false ->
     prisma.task.count (Some (or_else (userId args) (User.id me))) db
       <= page_size args ->
     Permutation (items page)
       (filter (fun t => (Task.userId t =?
                          or_else (userId args) (User.id me))%string)
               (tasks db))).
Proof.
  set (target := or_else (userId args) (User.id me)).
  eexists. split; [apply tasksCursor_run|].
  rewrite items_of_run. fold target. cbn [totalCount].
  split; [reflexivity|].
  split.
  { apply Forall_forall. intros t Ht.
    apply slice0_incl, fetched_incl in Ht. now apply tasksOf_In in Ht. }
  split.
  - intros rest Hn Hrest.
    rewrite (fetched_rows_after args me db rest Hn Hrest).
    rewrite slice0_nonneg by exact Hn.
    replace (Z.to_nat (page_size args + 1))
      with (S (Z.to_nat (page_size args))) by lia.
    apply firstn_succ_firstn.
  - intros Habs Hcount. rewrite <- tasksOf_length in Hcount. fold target in Hcount.
    assert (Hn : 0 <= page_size args)
      by (eapply Z.le_trans; [apply Nat2Z.is_nonneg|exact Hcount]).
    assert (Hrest : rows_after (after args) (tasksOf db target)
                    = Some (tasksOf db target)).
    { unfold rows_after. destruct (after args); auto. now rewrite Habs. }
    rewrite (fetched_rows_after args me db _ Hn Hrest).
    rewrite slice0_nonneg by exact Hn.
    rewrite (firstn_all2 (n := Z.to_nat (page_size args + 1))) by lia.
    rewrite firstn_all2 by lia.
    apply sort_by_perm.
Qed.

(** C9.  With a [userId] argument [U] (a non-empty string) every
    authenticated caller gets the page [tasksCursor] cuts out of [U]'s
    newest-first tasks: the [first] rows after the cursor, all of [U]'s
    stored tasks once [first] reaches their number, [totalCount] the
    number of [U]'s tasks, and the same page whoever the caller is.
    Without the argument (missing, [null], or the empty string, which
    the source treats alike) the page is cut out of the caller's own
    tasks in the same way. *)
Theorem tasksCursor_target_user :
  forall (db : Db) (me : User.t) (n : arg Z) (c : arg string),
    (forall U, U <> "" ->
       exists page,
         Query.tasksCursor {| first := n; after := c; userId := Given U |}
           {| user := Some me |} db = (Ok page, db) /\
         (forall other,
             Query.tasksCursor {| first := n; after := c; userId := Given U |}
               {| user := Some other |} db = (Ok page, db)) /\
         totalCount page =
           Z.of_nat (List.length
             (filter (fun t => (Task.userId t =? U)%string) (tasks db))) /\
         Forall (fun t => In t (tasks db) /\ Task.userId t = U) (items page) /\
         (forall rest,
             0 <= toNumber (default_param 10 n) ->
             rows_after c (tasksOf db U) = Some rest ->
             items page = firstn (Z.to_nat (toNumber (default_param 10 n))) rest) /\
         (truthy c = false ->
          prisma.task.count (Some U) db <= toNumber (default_param 10 n) ->
          Permutation (items page)
            (filter (fun t => (Task.userId t =? U)%string) (tasks db)))) /\
    (forall absent,
       absent = Undefined \/ absent = Null \/ absent = Given "" ->
       exists page,
         Query.tasksCursor {| first := n; after := c; userId := absent |}
           {| user := Some me |} db = (Ok page, db) /\
         totalCount page =
           Z.of_nat (List.length
             (filter (fun t => (Task.userId t =? User.id me)%string)
                     (tasks db))) /\
         Forall (fun t => In t (tasks db) /\ Task.userId t = User.id me)
                (items page) /\
         (forall rest,
             0 <= toNumber (default_param 10 n) ->
             rows_after c (tasksOf db (User.id me)) = Some rest ->
             items page = firstn (Z.to_nat (toNumber (default_param 10 n))) rest) /\
         (truthy c = false ->
          prisma.task.count (Some (User.id me)) db
            <= toNumber (default_param 10 n) ->
          Permutation (items page)
            (filter (fun t => (Task.userId t =? User.id me)%string)
                    (tasks db)))).
Proof.
  intros db me n c. split.
  - intros U HU.
    assert (Htarget : forall who, or_else (Given U) (User.id who) = U).
    { intros who. simpl. destruct (String.eqb_spec U ""); congruence. }
    destruct (tasksCursor_over_target db me
                {| first := n; after := c; userId := Given U |})
      as [page [Hrun [Hcount [Hall [Hpin Hperm]]]]].
    cbn [userId after first page_size] in *. rewrite Htarget in *.
    exists page. split; [exact Hrun|].
    split.
    { intros other. rewrite tasksCursor_run in Hrun |- *.
      unfold fetched in Hrun |- *. cbn [userId] in Hrun |- *.
      rewrite !Htarget in Hrun |- *. exact Hrun. }
    repeat split; assumption.
  - intros absent Habs.
    assert (Htarget : or_else absent (User.id me) = User.id me)
      by (destruct Habs as [E|[E|E]]; subst; reflexivity).
    destruct (tasksCursor_over_target db me
                {| first := n; after := c; userId := absent |})
      as [page [Hrun [Hcount [Hall [Hpin Hperm]]]]].
    cbn [userId after first page_size] in *. rewrite Htarget in *.
    exists page. repeat split; assumption.
Qed.

Lemma tasksCursor_target_user_witness :
  exists page,
    Query.tasksCursor
      {| first := Given 5; after := Undefined; userId := Given "u1" |}
      {| user := Some bob |} sample_db = (Ok page, sample_db) /\
    items page = [t1; t2; t3] /\
    totalCount page = 3.
Proof.
  destruct (proj1 (tasksCursor_target_user sample_db bob (Given 5) Undefined)
              "u1")
    as [page [Hrun [_ [Hcount [_ [Hpin _]]]]]].
  - discriminate.
  - exists page. split; [exact Hrun|]. split.
    + apply (Hpin [t1; t2; t3]); [vm_compute; discriminate|reflexivity].
    + rewrite Hcount. reflexivity.
Defined.
